(** * PUDL settings validation and the 994e1c2027c0 schema migration

    A shallow embedding of [src/pudl/settings.py] (pydantic models that
    validate the ETL settings) and of the Alembic migration
    [migrations/versions/994e1c2027c0_add_metadata_cols_to_electric_operating_.py],
    followed by the properties of both.

    Layout, definitions first:
    - [Py]        the Python values and builtins the two files use;
    - [Pydantic]  the part of pydantic (v1) model construction the settings
                  classes rely on: field validation, validators, root
                  validators, [Config.extra], [Config.allow_mutation];
    - [Migration] the two migration functions over a table catalogue;
    - [Settings]  the classes of settings.py, over the constants the module
                  imports from the rest of the package;
    - [Sample]    constants and a database to instantiate the statements;
    then the properties: [PyFacts], [SettingsFacts], [MigrationFacts] and
    their instances in [Examples]. *)

From Stdlib Require Import ZArith String Ascii Lia.
From stdpp Require Import base tactics option list sorting gmap strings fin_maps.

Set Warnings "-notation-for-abbreviation".

(** ** Python values and builtins *)

Module Py.

(** The values settings fields hold: [bool], [int], [List[int]],
    [List[str]] and a tuple (only [bad_cols], of strings here). *)
Inductive value :=
| VBool (b : bool)
| VInt (z : Z)
| VInts (l : list Z)
| VStrs (l : list string)
| VTuple (l : list string).

Global Instance value_eq_dec : EqDecision value.
Proof. solve_decision. Defined.

#[local] Set Warnings "-register-all".

(** Exceptions.  Each constructor carries exactly the values its message
    interpolates; the text is given with the line that raises it. *)
Inductive exn :=
| MissingField (cls name : string)
    (* settings.py:46  "{cls.__name__} is missing '{name}' field." *)
| NotAvailable (partitions_not_working : value) (name : string)
    (* settings.py:50  "'{partitions_not_working}' {name} are not available." *)
| Eia860mYear (eia860m_year : Z) (years : value)
    (* settings.py:132 AssertionError "Attempting to integrate an eia860m
       year ({eia860m_year}) that is within the eia860 years: {years}. ..." *)
| ReferenceYear (refyear : Z) (years : value)
    (* settings.py:325 "Reference year {refyear} is outside the range of
       available FERC Form 1 data {years}." *)
| MaxEmpty          (* ValueError: max() arg is an empty sequence *)
| NotIterable       (* TypeError: object is not iterable *)
| BadDate           (* ValueError of pd.to_datetime *)
| AttributeError (name : string)
| WrongType         (* pydantic: the value does not fit the annotation *)
| ExtraForbidden    (* pydantic: extra fields not permitted *)
| Immutable (cls : string)
    (* pydantic: "{cls}" is immutable and does not support item assignment *)
| NoField (cls name : string)
    (* pydantic: "{cls}" object has no field "{name}" *)
| ValidationError (errors : list (string * exn)).
    (* pydantic: the errors of a model, each with its location *)

Inductive result (A : Type) :=
| Ok (a : A)
| Raise (e : exn).
Global Arguments Ok {A} a.
Global Arguments Raise {A} e.

Definition bind {A B} (r : result A) (k : A → result B) : result B :=
  match r with
  | Ok a => k a
  | Raise e => Raise e
  end.

Notation "'let!' x ':=' r 'in' k" := (bind r (fun x => k))
  (at level 10, x name, r at level 100, k at level 200, only parsing).

Definition is_ok {A} (r : result A) : bool :=
  match r with Ok _ => true | Raise _ => false end.

(** [set(l)]: the distinct elements of [l].  Python leaves the iteration
    order of a set unspecified; the embedding enumerates it in order of
    first occurrence, and [sorted] below erases the choice. *)
Definition set_ {A} `{EqDecision A} (l : list A) : list A := remove_dups l.

(** [set(l) - set(k)] *)
Definition set_minus {A} `{EqDecision A} (l k : list A) : list A :=
  list_difference (set_ l) (set_ k).

(** [sorted(l)] for ints, and for strs (code point order, which on the
    bytes of [string] is [String.le]). *)
Definition sorted_ints (l : list Z) : list Z := merge_sort Z.le l.
Definition sorted_strs (l : list string) : list string := merge_sort String.le l.

(** [max(l)] *)
Definition max_ (l : list Z) : result Z :=
  match l with
  | [] => Raise MaxEmpty
  | x :: l' => Ok (foldr Z.max x l')
  end.

(** [x in l] *)
Definition in_ {A} `{EqDecision A} (x : A) (l : list A) : bool :=
  bool_decide (x ∈ l).

(** [list(set(partition) - set(working_partitions))] on values.  Values of
    different element types are never equal; a value that is not a list
    cannot be iterated. *)
Definition value_set_minus (partition working_partitions : value) : result value :=
  match partition, working_partitions with
  | VInts l, VInts k => Ok (VInts (set_minus l k))
  | VStrs l, VStrs k => Ok (VStrs (set_minus l k))
  | VInts l, VStrs _ => Ok (VInts (set_ l))
  | VStrs l, VInts _ => Ok (VStrs (set_ l))
  | _, _ => Raise NotIterable
  end.

(** [len(v)] of a list value. *)
Definition value_len (v : value) : nat :=
  match v with
  | VInts l => length l
  | VStrs l => length l
  | VTuple l => length l
  | _ => 0
  end.

(** [sorted(set(partition))] on values. *)
Definition value_sorted_set (partition : value) : result value :=
  match partition with
  | VInts l => Ok (VInts (sorted_ints (set_ l)))
  | VStrs l => Ok (VStrs (sorted_strs (set_ l)))
  | _ => Raise NotIterable
  end.

(** The year of [pd.to_datetime(s)] for a date written [YYYY-MM]: the
    decimal number in front of the first dash. *)
Definition digit (c : ascii) : option Z :=
  let n := Z.of_N (N_of_ascii c) in
  if bool_decide (48 ≤ n ≤ 57)%Z then Some (n - 48)%Z else None.

Fixpoint year_digits (s : string) (acc : Z) : option Z :=
  match s with
  | EmptyString => Some acc
  | String c s' =>
      if bool_decide (c = "-"%char) then Some acc
      else match digit c with
           | Some d => year_digits s' (10 * acc + d)%Z
           | None => None
           end
  end.

Definition to_datetime_year (s : string) : result Z :=
  match s with
  | EmptyString => Raise BadDate
  | String c _ =>
      match digit c, year_digits s 0 with
      | Some _, Some y => Ok y
      | _, _ => Raise BadDate
      end
  end.

End Py.
Export Py.

(** ** Pydantic model construction *)

Module Pydantic.

(** The annotation of a field. *)
Inductive annotation := TBool | TInt | TListInt | TListStr | TTuple.

(** Pydantic first fits the argument to the annotation.  Its lax
    conversions (the string ["2019"] for an int, say) are left out: an
    argument either has the annotated shape or is rejected. *)
Definition fits (t : annotation) (v : value) : bool :=
  match t, v with
  | TBool, VBool _ | TInt, VInt _ | TListInt, VInts _
  | TListStr, VStrs _ | TTuple, VTuple _ => true
  | _, _ => false
  end.

Record field := Field {
  f_name : string;
  f_type : annotation;
  f_default : value;
  f_validators : list (value → result value)   (* the [@validator]s, in order *)
}.

(** [class Config]: the two settings of [BaseModel.Config]. *)
Record config := Config { allow_mutation : bool; extra_forbid : bool }.

Record model_class := ModelClass {
  cls_name : string;
  cls_config : config;
  cls_fields : list field;
  cls_post_root_validators :
    list (gmap string value → result (gmap string value))
}.

(** An instance is its [__dict__]. *)
Record object := Object { obj_class : string; obj_dict : gmap string value }.

Global Instance object_eq_dec : EqDecision object.
Proof. solve_decision. Defined.

Fixpoint run_validators (vs : list (value → result value)) (v : value)
  : result value :=
  match vs with
  | [] => Ok v
  | f :: vs' => let! v' := f v in run_validators vs' v'
  end.

(** [ModelField.validate]: the annotation, then the field's validators. *)
Definition validate_field (f : field) (v : value) : result value :=
  if fits (f_type f) v then run_validators (f_validators f) v
  else Raise WrongType.

(** The loop of [validate_model] over the fields, in declaration order.
    An absent argument takes the default, which is not validated
    ([validate_all] is off and no validator is [always]); a rejected
    argument leaves its name out of [values] and adds an error. *)
Fixpoint validate_fields (fs : list field) (input_data : gmap string value)
    (values : gmap string value) (errors : list (string * exn))
  : gmap string value * list (string * exn) :=
  match fs with
  | [] => (values, errors)
  | f :: fs' =>
      match input_data !! f_name f with
      | None =>
          validate_fields fs' input_data (<[f_name f := f_default f]> values) errors
      | Some v =>
          match validate_field f v with
          | Ok v' =>
              validate_fields fs' input_data (<[f_name f := v']> values) errors
          | Raise e =>
              validate_fields fs' input_data values (errors ++ [(f_name f, e)])
          end
      end
  end.

(** [extra = "forbid"]: every argument that names no field is an error,
    reported in sorted order. *)
Definition extra_errors (c : config) (fs : list field)
    (input_data : gmap string value) : list (string * exn) :=
  if extra_forbid c then
    (λ k, (k, ExtraForbidden)) <$>
      sorted_strs (filter (λ k, k ∉ f_name <$> fs) (fst <$> map_to_list input_data))
  else [].

(** The post root validators run in order, also after errors
    ([skip_on_failure] is off); one that raises adds a [__root__] error
    and leaves [values] as they were. *)
Fixpoint run_root_validators
    (vs : list (gmap string value → result (gmap string value)))
    (values : gmap string value) (errors : list (string * exn))
  : gmap string value * list (string * exn) :=
  match vs with
  | [] => (values, errors)
  | v :: vs' =>
      match v values with
      | Ok values' => run_root_validators vs' values' errors
      | Raise e => run_root_validators vs' values (errors ++ [("__root__", e)])
      end
  end.

Definition validate_model (c : model_class) (input_data : gmap string value)
  : gmap string value * list (string * exn) :=
  let '(values, errors) := validate_fields (cls_fields c) input_data ∅ [] in
  let errors := errors ++ extra_errors (cls_config c) (cls_fields c) input_data in
  run_root_validators (cls_post_root_validators c) values errors.

(** Calling the class on keyword arguments: [BaseModel.__init__]. *)
Definition new (c : model_class) (data : gmap string value) : result object :=
  match validate_model c data with
  | (values, []) => Ok (Object (cls_name c) values)
  | (_, errors) => Raise (ValidationError errors)
  end.

(** [obj.name], for a field. *)
Definition getattr (o : object) (name : string) : result value :=
  match obj_dict o !! name with
  | Some v => Ok v
  | None => Raise (AttributeError name)
  end.




(** An argument for a field annotated with a model class: [None], a
    dict of keyword arguments, or an instance. *)
Inductive model_arg (K M : Type) :=
| ArgNone
| ArgDict (kw : K)
| ArgModel (m : M).
Global Arguments ArgNone {K M}.
Global Arguments ArgDict {K M} kw.
Global Arguments ArgModel {K M} m.

(** [Model.validate(value)] for a field whose default is [None]: [None]
    is kept and a dict is passed to the constructor.  An instance of the
    class is taken as it is; any other instance is read as a dict of its
    fields, [dict(value)], and passed to the constructor.  [foreign]
    gives that dict, and [None] for an instance of the class. *)
Definition validate_model_arg {K M} (foreign : M → option K)
    (construct : K → result M) (a : model_arg K M) : result (option M) :=
  match a with
  | ArgNone => Ok None
  | ArgDict kw => let! m := construct kw in Ok (Some m)
  | ArgModel m =>
      match foreign m with
      | None => Ok (Some m)
      | Some kw => let! m' := construct kw in Ok (Some m')
      end
  end.

(** For the classes whose instances are [object]s. *)
Definition foreign_object (c : model_class) (o : object)
  : option (gmap string value) :=
  if bool_decide (obj_class o = cls_name c) then None else Some (obj_dict o).

End Pydantic.
Export Pydantic.

(** ** The migration 994e1c2027c0 *)

Module Migration.

(** [sa.Text()], [sa.Enum(...)] *)
Inductive column_type :=
| Text
| Enum (values : list string).

(** [sa.Column(name, type, nullable=..., comment=...)] *)
Record column := Column {
  col_name : string;
  col_type : column_type;
  col_nullable : bool;
  col_comment : string
}.

Global Instance column_type_eq_dec : EqDecision column_type.
Proof. solve_decision. Defined.
Global Instance column_eq_dec : EqDecision column.
Proof. solve_decision. Defined.

(** A table is the list of its columns; the database maps table names
    to tables. *)
Notation table := (list column) (only parsing).

Definition column_names (t : table) : list string := col_name <$> t.

(** The operations of a [batch_alter_table] block. *)
Inductive batch_operation :=
| add_column (c : column)
| drop_column (name : string).

(** One operation on a table.  The database refuses to add a column whose
    name the table already has and to drop one it has not. *)
Definition apply_operation (op : batch_operation) (t : table) : option table :=
  match op with
  | add_column c =>
      if bool_decide (col_name c ∈ column_names t) then None
      else Some (t ++ [c])
  | drop_column name =>
      if bool_decide (name ∈ column_names t)
      then Some (filter (λ c, col_name c ≠ name) t)
      else None
  end.

Fixpoint apply_operations (ops : list batch_operation) (t : table) : option table :=
  match ops with
  | [] => Some t
  | op :: ops' =>
      match apply_operation op t with
      | Some t' => apply_operations ops' t'
      | None => None
      end
  end.

(** [with op.batch_alter_table(name, schema=None) as batch_op: ...]: the
    operations of the block are applied to the table, which must exist. *)
Definition batch_alter_table (name : string) (ops : list batch_operation)
    (db : gmap string table) : option (gmap string table) :=
  match db !! name with
  | Some t =>
      match apply_operations ops t with
      | Some t' => Some (<[name := t']> db)
      | None => None
      end
  | None => None
  end.

(** A migration function is a sequence of [batch_alter_table] blocks. *)
Fixpoint run (blocks : list (string * list batch_operation))
    (db : gmap string table) : option (gmap string table) :=
  match blocks with
  | [] => Some db
  | (name, ops) :: blocks' =>
      match batch_alter_table name ops db with
      | Some db' => run blocks' db'
      | None => None
      end
  end.

Definition ferc_account : column :=
  Column "ferc_account" Text true
    "Actual FERC Account number (e.g. '359.1') if available, or a PUDL assigned ID when FERC accounts have been split or combined in reporting.".

Definition row_type_xbrl : column :=
  Column "row_type_xbrl" (Enum ["calculated_value"; "reported_value"]) true
    "Indicates whether the value reported in the row is calculated, or uniquely reported within the table.".

Definition upgrade_blocks : list (string * list batch_operation) :=
  [ ("denorm_electric_operating_revenues_ferc1",
     [add_column ferc_account; add_column row_type_xbrl]);
    ("electric_operating_revenues_ferc1",
     [add_column ferc_account; add_column row_type_xbrl]) ].

Definition downgrade_blocks : list (string * list batch_operation) :=
  [ ("electric_operating_revenues_ferc1",
     [drop_column "row_type_xbrl"; drop_column "ferc_account"]);
    ("denorm_electric_operating_revenues_ferc1",
     [drop_column "row_type_xbrl"; drop_column "ferc_account"]) ].

(** [upgrade()] and [downgrade()] *)
Definition upgrade : gmap string table → option (gmap string table) :=
  run upgrade_blocks.
Definition downgrade : gmap string table → option (gmap string table) :=
  run downgrade_blocks.

(** The (table, column) pairs a migration function adds and drops. *)
Definition added (blocks : list (string * list batch_operation))
  : list (string * string) :=
  '(t, ops) ← blocks;
  op ← ops;
  match op with add_column c => [(t, col_name c)] | drop_column _ => [] end.

Definition dropped (blocks : list (string * list batch_operation))
  : list (string * string) :=
  '(t, ops) ← blocks;
  op ← ops;
  match op with add_column _ => [] | drop_column n => [(t, n)] end.

(** A table without the two columns of the migration, the other columns
    in their order. *)
Definition without_metadata (t : list column) : list column :=
  filter (λ c, col_name c ≠ "ferc_account" ∧ col_name c ≠ "row_type_xbrl") t.

End Migration.

(** ** settings.py *)

Module Settings.

(** The five subclasses of [GenericDatasetSettings]. *)
Inductive dataset_settings :=
| Ferc1Settings
| Eia860Settings
| Eia923Settings
| EpaCemsSettings
| Ferc1ToSqliteSettings.

Global Instance dataset_settings_eq_dec : EqDecision dataset_settings.
Proof. solve_decision. Defined.

Section constants.

(** What settings.py imports from modules that are not part of this
    development: [pc.WORKING_PARTITIONS[dataset]["years"]], the dict
    [DBF_TABLES_FILENAMES] of [pudl.extract.ferc1] and [EPACEMS_STATES]
    of [pudl.metadata.enums]. *)
Variable WORKING_PARTITIONS_years : string → list Z.
Variable DBF_TABLES_FILENAMES : gmap string string.
Variable EPACEMS_STATES : list string.

(** [BaseModel.Config] *)
Definition BaseModel_Config : config :=
  {| allow_mutation := false; extra_forbid := true |}.

Definition name (cls : dataset_settings) : string :=
  match cls with
  | Ferc1Settings => "Ferc1Settings"
  | Eia860Settings => "Eia860Settings"
  | Eia923Settings => "Eia923Settings"
  | EpaCemsSettings => "EpaCemsSettings"
  | Ferc1ToSqliteSettings => "Ferc1ToSqliteSettings"
  end.

Definition Ferc1_tables : list string :=
  sorted_strs [ "fuel_ferc1"; "plants_steam_ferc1"; "plants_small_ferc1";
                "plants_hydro_ferc1"; "plants_pumped_storage_ferc1";
                "purchased_power_ferc1"; "plant_in_service_ferc1" ].

Definition Eia860_tables : list string :=
  sorted_strs [ "boiler_generator_assn_eia860"; "utilities_eia860";
                "plants_eia860"; "generators_eia860"; "ownership_eia860" ].

Definition Eia923_tables : list string :=
  sorted_strs [ "generation_fuel_eia923"; "boiler_fuel_eia923";
                "generation_eia923"; "coalmine_eia923";
                "fuel_receipts_costs_eia923" ].

(** [sorted(list(DBF_TABLES_FILENAMES.keys()))] *)
Definition Ferc1ToSqlite_tables : list string :=
  sorted_strs (fst <$> map_to_list DBF_TABLES_FILENAMES).

(** [sorted(set(EPACEMS_STATES))] *)
Definition EpaCems_states : list string := sorted_strs (set_ EPACEMS_STATES).

(** The class attribute [working_partitions], a dict in the order it is
    written. *)
Definition working_partitions (cls : dataset_settings) : list (string * value) :=
  match cls with
  | Ferc1Settings =>
      [ ("tables", VStrs Ferc1_tables);
        ("years", VInts (WORKING_PARTITIONS_years "ferc1")) ]
  | Eia860Settings =>
      [ ("tables", VStrs Eia860_tables);
        ("years", VInts (WORKING_PARTITIONS_years "eia860")) ]
  | Eia923Settings =>
      [ ("tables", VStrs Eia923_tables);
        ("years", VInts (WORKING_PARTITIONS_years "eia923")) ]
  | EpaCemsSettings =>
      [ ("states", VStrs EpaCems_states);
        ("years", VInts (WORKING_PARTITIONS_years "epacems")) ]
  | Ferc1ToSqliteSettings =>
      [ ("tables", VStrs Ferc1ToSqlite_tables);
        ("years", VInts (WORKING_PARTITIONS_years "ferc1")) ]
  end.

(** [GenericDatasetSettings.validate_partitions], the loop over
    [cls.working_partitions.items()]. *)
Fixpoint validate_partitions_items (cls : dataset_settings)
    (items : list (string * value)) (partitions : gmap string value)
  : result (gmap string value) :=
  match items with
  | [] => Ok partitions
  | (name_, working_partitions_) :: items' =>
      match partitions !! name_ with
      | None => Raise (MissingField (name cls) name_)
      | Some partition =>
          let! partitions_not_working :=
            value_set_minus partition working_partitions_ in
          if bool_decide (0 < value_len partitions_not_working) then
            Raise (NotAvailable partitions_not_working name_)
          else
            let! sorted_partition := value_sorted_set partition in
            validate_partitions_items cls items'
              (<[name_ := sorted_partition]> partitions)
      end
  end.

Definition validate_partitions (cls : dataset_settings)
    (partitions : gmap string value) : result (gmap string value) :=
  validate_partitions_items cls (working_partitions cls) partitions.

(** [Eia860Settings.eia860m_date] *)
Definition eia860m_date : string := "2020-11".

(** [Eia860Settings.check_860m_date] *)
Definition check_860m_date (eia860m : value) : result value :=
  let! eia860m_year := to_datetime_year eia860m_date in
  match eia860m with
  | VBool true =>
      let! newest := max_ (WORKING_PARTITIONS_years "eia860") in
      if bool_decide (eia860m_year ≠ newest + 1)%Z then
        Raise (Eia860mYear eia860m_year (VInts (WORKING_PARTITIONS_years "eia860")))
      else Ok eia860m
  | _ => Ok eia860m
  end.

(** [EpaCemsSettings.allow_all_keyword] *)
Definition allow_all_keyword (states : value) : result value :=
  if bool_decide (states = VStrs ["all"]) then Ok (VStrs EpaCems_states)
  else Ok states.

(** [Ferc1ToSqliteSettings.check_reference_year]; the annotation makes
    [refyear] an int. *)
Definition check_reference_year (refyear : value) : result value :=
  match refyear with
  | VInt y =>
      if in_ y (WORKING_PARTITIONS_years "ferc1") then Ok refyear
      else Raise (ReferenceYear y (VInts (WORKING_PARTITIONS_years "ferc1")))
  | _ => Raise WrongType
  end.

(** The default of [refyear], [max(working_partitions["years"])], is
    computed when the class is defined; were there no ferc1 year the
    class statement would raise and the module would not load. *)
Definition refyear_default : Z :=
  match max_ (WORKING_PARTITIONS_years "ferc1") with
  | Ok y => y
  | Raise _ => 0%Z
  end.

(** The fields of each class, in the order of their annotations. *)
Definition fields (cls : dataset_settings) : list field :=
  match cls with
  | Ferc1Settings =>
      [ Field "years" TListInt (VInts (WORKING_PARTITIONS_years "ferc1")) [];
        Field "tables" TListStr (VStrs Ferc1_tables) [] ]
  | Eia860Settings =>
      [ Field "years" TListInt (VInts (WORKING_PARTITIONS_years "eia860")) [];
        Field "tables" TListStr (VStrs Eia860_tables) [];
        Field "eia860m" TBool (VBool false) [check_860m_date] ]
  | Eia923Settings =>
      [ Field "years" TListInt (VInts (WORKING_PARTITIONS_years "eia923")) [];
        Field "tables" TListStr (VStrs Eia923_tables) [] ]
  | EpaCemsSettings =>
      [ Field "years" TListInt (VInts (WORKING_PARTITIONS_years "epacems")) [];
        Field "states" TListStr (VStrs EpaCems_states) [allow_all_keyword] ]
  | Ferc1ToSqliteSettings =>
      [ Field "years" TListInt (VInts (WORKING_PARTITIONS_years "ferc1")) [];
        Field "tables" TListStr (VStrs Ferc1ToSqlite_tables) [];
        Field "refyear" TInt (VInt refyear_default) [check_reference_year];
        Field "bad_cols" TTuple (VTuple []) [] ]
  end.

(** A subclass of [GenericDatasetSettings] as a pydantic model: the
    inherited config and the inherited root validator. *)
Definition model (cls : dataset_settings) : model_class :=
  {| cls_name := name cls;
     cls_config := BaseModel_Config;
     cls_fields := fields cls;
     cls_post_root_validators := [validate_partitions cls] |}.

(** [GlueSettings] *)
Definition GlueSettings : model_class :=
  {| cls_name := "GlueSettings";
     cls_config := BaseModel_Config;
     cls_fields := [ Field "eia" TBool (VBool true) [];
                     Field "ferc1" TBool (VBool true) [] ];
     cls_post_root_validators := [] |}.

(** [EiaSettings]: both fields default to [None]. *)
Record EiaSettings := {
  eia860 : option object;
  eia923 : option object
}.

(** The keyword arguments of [EiaSettings]; [None] is an absent key. *)
Record EiaSettings_data := {
  data_eia860 : option (model_arg (gmap string value) object);
  data_eia923 : option (model_arg (gmap string value) object)
}.

(** One step of the field loop for a field annotated with a model class
    and defaulting to [None]. *)
Definition validate_model_field {K M} (loc : string) (foreign : M → option K)
    (construct : K → result M)
    (a : option (model_arg K M)) (errors : list (string * exn))
  : option M * list (string * exn) :=
  match a with
  | None => (None, errors)
  | Some a =>
      match validate_model_arg foreign construct a with
      | Ok m => (m, errors)
      | Raise e => (None, errors ++ [(loc, e)])
      end
  end.

(** The same for a field annotated with a class [c] of [object]s. *)
Definition validate_object_field (loc : string) (c : model_class)
  : option (model_arg (gmap string value) object) → list (string * exn)
    → option object * list (string * exn) :=
  validate_model_field loc (foreign_object c) (new c).

(** [bool(x)] for [None] or an instance. *)
Definition truthy {M} (x : option M) : bool :=
  match x with Some _ => true | None => false end.

(** [x.years] for [x] an instance or [None]. *)
Definition years_of (x : option object) : result value :=
  match x with
  | Some o => getattr o "years"
  | None => Raise (AttributeError "years")
  end.

(** [EiaSettings.check_eia_dependencies].  [values.get] gives [None] for
    a field that is [None] and for one that failed validation alike, so
    [values] is kept as a record of options. *)
Definition check_eia_dependencies (values : EiaSettings) : result EiaSettings :=
  let eia923_ := eia923 values in
  let eia860_ := eia860 values in
  let! values :=
    if negb (truthy eia923_) && truthy eia860_ then
      let! years := years_of eia860_ in
      let! new923 :=
        new (model Eia923Settings)
          {[ "tables" := VStrs ["boiler_fuel_eia923"; "generation_eia923"];
             "years" := years ]} in
      Ok {| eia860 := eia860 values; eia923 := Some new923 |}
    else Ok values in
  if truthy eia923_ && negb (truthy eia860_) then
    let! years := years_of eia923_ in
    let! new860 := new (model Eia860Settings) {[ "years" := years ]} in
    Ok {| eia860 := Some new860; eia923 := eia923 values |}
  else Ok values.

(** [EiaSettings(eia860=..., eia923=...)] *)
Definition EiaSettings_new (data : EiaSettings_data) : result EiaSettings :=
  let '(v860, errors) :=
    validate_object_field "eia860" (model Eia860Settings) (data_eia860 data) [] in
  let '(v923, errors) :=
    validate_object_field "eia923" (model Eia923Settings) (data_eia923 data) errors in
  let values := {| eia860 := v860; eia923 := v923 |} in
  let '(values, errors) :=
    match check_eia_dependencies values with
    | Ok values' => (values', errors)
    | Raise e => (values, errors ++ [("__root__", e)])
    end in
  match errors with
  | [] => Ok values
  | _ => Raise (ValidationError errors)
  end.

(** [DatasetsSettings]: the four fields default to [None]. *)
Record DatasetsSettings := {
  ferc1 : option object;
  eia : option EiaSettings;
  glue : option object;
  epacems : option object
}.

Record DatasetsSettings_data := {
  data_ferc1 : option (model_arg (gmap string value) object);
  data_eia : option (model_arg EiaSettings_data EiaSettings);
  data_glue : option (model_arg (gmap string value) object);
  data_epacems : option (model_arg (gmap string value) object)
}.

(** [bool(x)] for an argument: [None] and the empty dict are false. *)
Definition arg_truthy {K M} (nonempty : K → bool) (a : model_arg K M) : bool :=
  match a with
  | ArgNone => false
  | ArgDict kw => nonempty kw
  | ArgModel _ => true
  end.

Definition dict_nonempty (kw : gmap string value) : bool :=
  bool_decide (kw ≠ ∅).

Definition eia_data_nonempty (kw : EiaSettings_data) : bool :=
  bool_decide (is_Some (data_eia860 kw)) || bool_decide (is_Some (data_eia923 kw)).

(** [any(values.values())] over the keys that are present. *)
Definition any_values (values : DatasetsSettings_data) : bool :=
  from_option (arg_truthy dict_nonempty) false (data_ferc1 values)
  || from_option (arg_truthy eia_data_nonempty) false (data_eia values)
  || from_option (arg_truthy dict_nonempty) false (data_glue values)
  || from_option (arg_truthy dict_nonempty) false (data_epacems values).

(** [DatasetsSettings.default_load_all], a [pre] root validator: it sees
    the raw arguments. *)
Definition default_load_all (values : DatasetsSettings_data)
  : result DatasetsSettings_data :=
  if negb (any_values values) then
    let! default_ferc1 := new (model Ferc1Settings) ∅ in
    let! default_eia := EiaSettings_new {| data_eia860 := None; data_eia923 := None |} in
    Ok {| data_ferc1 := Some (ArgModel default_ferc1);
          data_eia := Some (ArgModel default_eia);
          data_glue := data_glue values;
          data_epacems := data_epacems values |}
  else Ok values.

(** [DatasetsSettings.add_glue_settings] *)
Definition add_glue_settings (values : DatasetsSettings) : result DatasetsSettings :=
  if truthy (ferc1 values) && truthy (eia values) then
    let! default_glue := new GlueSettings ∅ in
    Ok {| ferc1 := ferc1 values; eia := eia values;
          glue := Some default_glue; epacems := epacems values |}
  else Ok values.

(** [DatasetsSettings(ferc1=..., eia=..., glue=..., epacems=...)]: a pre
    root validator that raises ends the validation at once. *)
Definition DatasetsSettings_new (data : DatasetsSettings_data)
  : result DatasetsSettings :=
  match default_load_all data with
  | Raise e => Raise (ValidationError [("__root__", e)])
  | Ok data =>
      let '(vferc1, errors) :=
        validate_object_field "ferc1" (model Ferc1Settings) (data_ferc1 data) [] in
      let '(veia, errors) :=
        validate_model_field "eia" (λ _ : EiaSettings, None) EiaSettings_new
          (data_eia data) errors in
      let '(vglue, errors) :=
        validate_object_field "glue" GlueSettings (data_glue data) errors in
      let '(vepacems, errors) :=
        validate_object_field "epacems" (model EpaCemsSettings)
          (data_epacems data) errors in
      let values :=
        {| ferc1 := vferc1; eia := veia; glue := vglue; epacems := vepacems |} in
      let '(values, errors) :=
        match add_glue_settings values with
        | Ok values' => (values', errors)
        | Raise e => (values, errors ++ [("__root__", e)])
        end in
      match errors with
      | [] => Ok values
      | _ => Raise (ValidationError errors)
      end
  end.





(** *** Notions used in the statements *)

(** What the root validators find under the name of field [f]: the
    default, the validated argument, or nothing when the argument was
    rejected. *)
Definition field_value (f : field) (data : gmap string value) : option value :=
  match data !! f_name f with
  | None => Some (f_default f)
  | Some v =>
      match validate_field f v with
      | Ok v' => Some v'
      | Raise _ => None
      end
  end.

Definition field_errors (f : field) (data : gmap string value)
  : list (string * exn) :=
  match data !! f_name f with
  | None => []
  | Some v =>
      match validate_field f v with
      | Ok _ => []
      | Raise e => [(f_name f, e)]
      end
  end.

(** The check of line 48-49 lets [partition] through. *)
Definition passes (partition wp : value) : Prop :=
  ∃ bad, value_set_minus partition wp = Ok bad ∧ value_len bad = 0%nat.

(** The list a subclass is asked for under partition [n]: the argument,
    the working partition [wp] itself when the argument is absent (it is
    the default), and also when the states of [EpaCemsSettings] are
    [["all"]]. *)
Definition requested (cls : dataset_settings) (data : gmap string value)
    (n : string) (wp : value) : value :=
  match data !! n with
  | None => wp
  | Some v =>
      if bool_decide (cls = EpaCemsSettings ∧ n = "states" ∧ v = VStrs ["all"])
      then wp else v
  end.

(** Every value of the list [v] is one of the working partition [wp]. *)
Definition within (v wp : value) : Prop :=
  match v, wp with
  | VInts l, VInts k => l ⊆ k
  | VStrs l, VStrs k => l ⊆ k
  | _, _ => False
  end.

Global Instance within_dec v wp : Decision (within v wp).
Proof. destruct v, wp; simpl; apply _. Defined.

(** The values of [v] that are in [wp], in the order of [v]. *)
Definition value_intersection (v wp : value) : value :=
  match v, wp with
  | VInts l, VInts k => VInts (list_intersection l k)
  | VStrs l, VStrs k => VStrs (list_intersection l k)
  | _, _ => v
  end.

(** The lists [v1] and [v2] have the same values, in any order and with
    any repetitions. *)
Definition same_values (v1 v2 : value) : Prop :=
  match v1, v2 with
  | VInts l1, VInts l2 => ∀ x, x ∈ l1 ↔ x ∈ l2
  | VStrs l1, VStrs l2 => ∀ x, x ∈ l1 ↔ x ∈ l2
  | _, _ => False
  end.

(** Strictly ascending, hence free of duplicates. *)
Definition ascending (v : value) : Prop :=
  match v with
  | VInts l => StronglySorted Z.lt l
  | VStrs l => StronglySorted (strict String.le) l
  | _ => False
  end.



End constants.
End Settings.

(** ** A sample configuration

    Constants of the kind the package provides, on which the statements
    below are instantiated. *)

Module Sample.

(** [pc.WORKING_PARTITIONS[dataset]["years"]] *)
Definition WORKING_PARTITIONS_years (dataset : string) : list Z :=
  if bool_decide (dataset = "ferc1") then seqZ 1994 26          (* 1994 .. 2019 *)
  else if bool_decide (dataset = "epacems") then seqZ 1995 26   (* 1995 .. 2020 *)
  else if bool_decide (dataset = "eia860") then seqZ 2001 19    (* 2001 .. 2019 *)
  else if bool_decide (dataset = "eia923") then seqZ 2001 19    (* 2001 .. 2019 *)
  else [].

Definition DBF_TABLES_FILENAMES : gmap string string :=
  {[ "f1_fuel" := "F1_31"; "f1_steam" := "F1_89"; "f1_hydro" := "F1_86" ]}.

Definition EPACEMS_STATES : list string := ["TX"; "CA"; "NY"; "CO"; "ID"].

(** A database at the revision the migration starts from: the two
    tables, without the metadata columns. *)
Definition utility_id : Migration.column :=
  Migration.Column "utility_id_ferc1" Migration.Text false "FERC assigned respondent ID.".
Definition report_year : Migration.column :=
  Migration.Column "report_year" Migration.Text false "Four-digit year in which the data was reported.".
Definition dollar_value : Migration.column :=
  Migration.Column "dollar_value" Migration.Text true "Dollar value of reported income, expense, asset, or liability.".

Definition database : gmap string Migration.table :=
  {[ "denorm_electric_operating_revenues_ferc1" :=
       [utility_id; report_year; dollar_value];
     "electric_operating_revenues_ferc1" := [utility_id; report_year; dollar_value];
     "plants_steam_ferc1" := [utility_id; report_year] ]}.

End Sample.

(** ** Properties of the builtins *)

Module PyFacts.

(** *** [sorted(set(l))] *)

Section sorted_set.
Context {A : Type} `{EqDecision A} (R : relation A).
Context `{!PartialOrder R, !Total R, !RelDecision R}.

Lemma elem_of_sorted_set (l : list A) x :
  x ∈ merge_sort R (set_ l) ↔ x ∈ l.
Proof.
  unfold set_. rewrite merge_sort_Permutation. apply elem_of_remove_dups.
Qed.

Lemma NoDup_sorted_set (l : list A) : NoDup (merge_sort R (set_ l)).
Proof.
  unfold set_. rewrite merge_sort_Permutation. apply NoDup_remove_dups.
Qed.

Lemma StronglySorted_sorted_set (l : list A) :
  StronglySorted R (merge_sort R (set_ l)).
Proof. apply StronglySorted_merge_sort; apply _. Qed.

(** A sorted list without duplicates is strictly ascending. *)
Lemma StronglySorted_strict (l : list A) :
  StronglySorted R l → NoDup l → StronglySorted (strict R) l.
Proof.
  induction 1 as [|x l Hl IH Hx]; intros Hnd; constructor.
  - apply IH. by apply NoDup_cons in Hnd as [_ ?].
  - apply NoDup_cons in Hnd as [Hxl _].
    apply Forall_forall. intros y Hy. split.
    + by eapply Forall_forall in Hx.
    + intros Hyx. assert (x = y) as ->; [|done].
      apply (anti_symm R); [|done]. by eapply Forall_forall in Hx.
Qed.

Lemma sorted_set_strict (l : list A) :
  StronglySorted (strict R) (merge_sort R (set_ l)).
Proof.
  apply StronglySorted_strict;
    auto using StronglySorted_sorted_set, NoDup_sorted_set.
Qed.

(** The result depends on the elements only: neither on the order in
    which the set is enumerated nor on repetitions. *)
Lemma sorted_set_ext (l k : list A) :
  (∀ x, x ∈ l ↔ x ∈ k) → merge_sort R (set_ l) = merge_sort R (set_ k).
Proof.
  intros Hlk. apply (StronglySorted_unique R);
    try apply StronglySorted_sorted_set.
  rewrite !merge_sort_Permutation. unfold set_.
  apply NoDup_Permutation; try apply NoDup_remove_dups.
  intros x. by rewrite !elem_of_remove_dups.
Qed.

Lemma sorted_set_any_order (l k : list A) :
  NoDup k → (∀ x, x ∈ k ↔ x ∈ l) → merge_sort R k = merge_sort R (set_ l).
Proof.
  intros Hk Hlk. apply (StronglySorted_unique R).
  - apply StronglySorted_merge_sort; apply _.
  - apply StronglySorted_sorted_set.
  - rewrite !merge_sort_Permutation. unfold set_.
    apply NoDup_Permutation; auto using NoDup_remove_dups.
    intros x. by rewrite elem_of_remove_dups.
Qed.

(** It leaves a strictly ascending list as it is. *)
Lemma sorted_set_fixed (l : list A) :
  StronglySorted (strict R) l → merge_sort R (set_ l) = l.
Proof.
  intros Hl.
  assert (StronglySorted R l) as Hs.
  { induction Hl as [|x l _ IH Hx]; constructor; [done|].
    eapply Forall_impl; [done|]. by intros ? [??]. }
  assert (NoDup l) as Hnd.
  { clear Hs. induction Hl as [|x l _ IH Hx]; constructor; [|done].
    intros Hin. eapply Forall_forall in Hx; [|done].
    destruct Hx as [_ Hx]. apply Hx. reflexivity. }
  apply (StronglySorted_unique R); auto using StronglySorted_sorted_set.
  rewrite merge_sort_Permutation. unfold set_.
  apply NoDup_Permutation; auto using NoDup_remove_dups.
  intros x. by rewrite elem_of_remove_dups.
Qed.

Lemma sorted_set_idemp (l : list A) :
  merge_sort R (set_ (merge_sort R (set_ l))) = merge_sort R (set_ l).
Proof. apply sorted_set_fixed, sorted_set_strict. Qed.

(** [set(l) - set(k)] is empty exactly when every element of [l] is in
    [k]. *)
Lemma elem_of_set_minus (l k : list A) x :
  x ∈ set_minus l k ↔ x ∈ l ∧ x ∉ k.
Proof.
  unfold set_minus, set_.
  by rewrite list_elem_of_difference, !elem_of_remove_dups.
Qed.

Lemma set_minus_nil (l k : list A) : set_minus l k = [] ↔ l ⊆ k.
Proof.
  split.
  - intros Hnil x Hx. destruct (decide (x ∈ k)) as [|Hk]; [done|].
    assert (x ∈ set_minus l k) as Hin by by apply elem_of_set_minus.
    rewrite Hnil in Hin. by apply elem_of_nil in Hin.
  - intros Hlk. destruct (set_minus l k) as [|x l'] eqn:E; [done|].
    assert (x ∈ set_minus l k) as Hin by (rewrite E; left).
    apply elem_of_set_minus in Hin as [Hl Hk]. by apply Hlk in Hl.
Qed.

Lemma sorted_set_intersection (l k : list A) :
  l ⊆ k →
  merge_sort R (set_ l) = merge_sort R (set_ (list_intersection l k)).
Proof.
  intros Hlk. apply sorted_set_ext. intros x.
  rewrite list_elem_of_intersection. split; [|by intros [??]].
  intros Hx. split; [done|]. by apply Hlk.
Qed.

End sorted_set.

Lemma StronglySorted_impl_strict_Z (l : list Z) :
  StronglySorted (strict Z.le) l → StronglySorted Z.lt l.
Proof.
  induction 1 as [|x l _ IH Hx]; constructor; [done|].
  eapply Forall_impl; [done|]. intros y [Hle Hne]. simpl in *.
  destruct (decide (x = y)) as [->|]; [|lia]. by destruct Hne.
Qed.

Lemma filter_none {X} (P : X → Prop) `{!∀ x, Decision (P x)} (l : list X) :
  (∀ x, x ∈ l → ¬ P x) → filter P l = [].
Proof.
  induction l as [|x l IH]; intros HP; [done|].
  rewrite filter_cons_False by (apply HP; left).
  apply IH. intros y Hy. apply HP. by right.
Qed.

Lemma filter_all {X} (P : X → Prop) `{!∀ x, Decision (P x)} (l : list X) :
  (∀ x, x ∈ l → P x) → filter P l = l.
Proof.
  induction l as [|x l IH]; intros HP; [done|].
  rewrite filter_cons_True by (apply HP; left).
  f_equal. apply IH. intros y Hy. apply HP. by right.
Qed.

End PyFacts.

(** ** Properties of the settings *)

Module SettingsFacts.
Import PyFacts Settings.

Section facts.

Context (WORKING_PARTITIONS_years : string → list Z)
        (DBF_TABLES_FILENAMES : gmap string string)
        (EPACEMS_STATES : list string).

Local Notation Ferc1ToSqlite_tables :=
  (Settings.Ferc1ToSqlite_tables DBF_TABLES_FILENAMES).
Local Notation EpaCems_states := (Settings.EpaCems_states EPACEMS_STATES).
Local Notation working_partitions :=
  (Settings.working_partitions
     WORKING_PARTITIONS_years DBF_TABLES_FILENAMES EPACEMS_STATES).
Local Notation validate_partitions :=
  (Settings.validate_partitions
     WORKING_PARTITIONS_years DBF_TABLES_FILENAMES EPACEMS_STATES).
Local Notation check_860m_date :=
  (Settings.check_860m_date WORKING_PARTITIONS_years).
Local Notation allow_all_keyword := (Settings.allow_all_keyword EPACEMS_STATES).
Local Notation fields :=
  (Settings.fields WORKING_PARTITIONS_years DBF_TABLES_FILENAMES EPACEMS_STATES).
Local Notation model :=
  (Settings.model WORKING_PARTITIONS_years DBF_TABLES_FILENAMES EPACEMS_STATES).
Local Notation EiaSettings_new :=
  (Settings.EiaSettings_new
     WORKING_PARTITIONS_years DBF_TABLES_FILENAMES EPACEMS_STATES).
Local Notation default_load_all :=
  (Settings.default_load_all
     WORKING_PARTITIONS_years DBF_TABLES_FILENAMES EPACEMS_STATES).
Local Notation DatasetsSettings_new :=
  (Settings.DatasetsSettings_new
     WORKING_PARTITIONS_years DBF_TABLES_FILENAMES EPACEMS_STATES).

(** *** The field loop and the constructor *)

Lemma validate_fields_errors fs data values errors :
  (validate_fields fs data values errors).2
  = errors ++ mjoin ((λ f, field_errors f data) <$> fs).
Proof.
  revert values errors.
  induction fs as [|f fs IH]; intros values errors; simpl.
  - by rewrite app_nil_r.
  - unfold field_errors at 1.
    destruct (data !! f_name f) as [v|]; [|by rewrite IH].
    destruct (validate_field f v); rewrite IH; [done|].
    by rewrite <-app_assoc.
Qed.

Lemma validate_fields_other fs data values errors n :
  n ∉ f_name <$> fs →
  (validate_fields fs data values errors).1 !! n = values !! n.
Proof.
  revert values errors.
  induction fs as [|f fs IH]; intros values errors Hn; simpl; [done|].
  rewrite fmap_cons, not_elem_of_cons in Hn. destruct Hn as [Hnf Hn].
  destruct (data !! f_name f) as [v|].
  - destruct (validate_field f v); rewrite IH by done; [|done].
    by rewrite lookup_insert_ne.
  - rewrite IH by done. by rewrite lookup_insert_ne.
Qed.

Lemma validate_fields_lookup fs data values errors f :
  NoDup (f_name <$> fs) → f ∈ fs →
  (validate_fields fs data values errors).1 !! f_name f
  = match field_value f data with
    | Some v => Some v
    | None => values !! f_name f
    end.
Proof.
  revert values errors.
  induction fs as [|g fs IH]; intros values errors Hnd Hf; simpl.
  { by apply elem_of_nil in Hf. }
  rewrite fmap_cons in Hnd. apply NoDup_cons in Hnd as [Hg Hnd].
  apply elem_of_cons in Hf as [->|Hf].
  - unfold field_value.
    destruct (data !! f_name g) as [v|].
    + destruct (validate_field g v);
        rewrite validate_fields_other by done; [|done].
      by rewrite lookup_insert_eq.
    + rewrite validate_fields_other by done. by rewrite lookup_insert_eq.
  - assert (f_name g ≠ f_name f) as Hne.
    { intros Heq. apply Hg. rewrite Heq. by apply list_elem_of_fmap_2. }
    destruct (data !! f_name g) as [v|].
    + destruct (validate_field g v); rewrite IH by done; [|done].
      destruct (field_value f data); [done|]. by rewrite lookup_insert_ne.
    + rewrite IH by done.
      destruct (field_value f data); [done|]. by rewrite lookup_insert_ne.
Qed.

(** A constructor either returns an instance or raises a
    [ValidationError] with at least one error. *)
Lemma new_Raise c data e :
  new c data = Raise e → ∃ errors, e = ValidationError errors ∧ errors ≠ [].
Proof.
  unfold new. destruct (validate_model c data) as [values [|err errors]];
    intros [= <-]. by eexists.
Qed.

(** *** [validate_partitions] *)

Lemma passes_ints l k : passes (VInts l) (VInts k) ↔ l ⊆ k.
Proof.
  unfold passes; simpl. rewrite <-set_minus_nil. split.
  - intros (bad & [= <-] & Hlen). by apply nil_length_inv.
  - intros ->. by eexists.
Qed.

Lemma passes_strs l k : passes (VStrs l) (VStrs k) ↔ l ⊆ k.
Proof.
  unfold passes; simpl. rewrite <-set_minus_nil. split.
  - intros (bad & [= <-] & Hlen). by apply nil_length_inv.
  - intros ->. by eexists.
Qed.

Lemma passes_sorted partition wp :
  passes partition wp → ∃ s, value_sorted_set partition = Ok s.
Proof.
  intros (bad & Hbad & _).
  destruct partition; simpl in *; try done; by eexists.
Qed.

(** A run of the loop that returns: every partition was found, passed
    the check and was replaced by its sorted set; the other names are
    untouched. *)
Lemma validate_partitions_items_Ok cls items p p' :
  NoDup items.*1 →
  validate_partitions_items cls items p = Ok p' →
  (∀ n wp, (n, wp) ∈ items →
     ∃ partition s, p !! n = Some partition ∧ passes partition wp
       ∧ value_sorted_set partition = Ok s ∧ p' !! n = Some s)
  ∧ (∀ n, n ∉ items.*1 → p' !! n = p !! n).
Proof.
  revert p. induction items as [|[n0 wp0] items IH]; intros p Hnd Hrun.
  { simpl in Hrun. injection Hrun as <-. split; [|done].
    intros ?? Hin. by apply elem_of_nil in Hin. }
  rewrite fmap_cons in Hnd. apply NoDup_cons in Hnd as [Hn0 Hnd].
  simpl in Hrun. destruct (p !! n0) as [partition|] eqn:Hp; [|done].
  destruct (value_set_minus partition wp0) as [bad|] eqn:Hbad; [|done].
  simpl in Hrun. case_bool_decide as Hlen; [done|].
  destruct (value_sorted_set partition) as [s|] eqn:Hs; [|done].
  simpl in Hrun. apply IH in Hrun as [Hin Hout]; [|done]. split.
  - intros n wp [[= -> ->]|Hmem]%elem_of_cons.
    + exists partition, s. repeat split; try done.
      * exists bad. split; [done|]. lia.
      * rewrite Hout by done. by rewrite lookup_insert_eq.
    + destruct (Hin n wp Hmem) as (q & s' & Hq & ? & ? & ?).
      assert (n0 ≠ n) as Hne.
      { intros ->. apply Hn0. by apply (list_elem_of_fmap_2 fst _ (n, wp)). }
      rewrite lookup_insert_ne in Hq by done. by exists q, s'.
  - intros n Hn. rewrite fmap_cons, not_elem_of_cons in Hn.
    destruct Hn as [Hne Hn]. rewrite Hout by done.
    by rewrite lookup_insert_ne.
Qed.

(** The loop returns as soon as every partition is there and passes. *)
Lemma validate_partitions_items_passes cls items p :
  NoDup items.*1 →
  (∀ n wp, (n, wp) ∈ items →
     ∃ partition, p !! n = Some partition ∧ passes partition wp) →
  ∃ p', validate_partitions_items cls items p = Ok p'.
Proof.
  revert p. induction items as [|[n0 wp0] items IH]; intros p Hnd Hall.
  { by eexists. }
  rewrite fmap_cons in Hnd. apply NoDup_cons in Hnd as [Hn0 Hnd].
  destruct (Hall n0 wp0) as (partition & Hp & Hpass); [left|].
  destruct (passes_sorted _ _ Hpass) as [s Hs].
  destruct Hpass as (bad & Hbad & Hlen).
  simpl. rewrite Hp, Hbad. simpl. rewrite bool_decide_eq_false_2 by lia.
  rewrite Hs. simpl. apply IH; [done|].
  intros n wp Hmem. destruct (Hall n wp) as (q & Hq & ?); [by right|].
  exists q. split; [|done]. rewrite lookup_insert_ne; [done|].
  intros ->. apply Hn0. by apply (list_elem_of_fmap_2 fst _ (n, wp)).
Qed.


(** *** The dataset classes *)

Lemma within_passes v wp : within v wp → passes v wp.
Proof.
  destruct v, wp; simpl; try done; intros ?.
  - by apply passes_ints.
  - by apply passes_strs.
Qed.

Lemma within_intersection v wp :
  within v wp →
  value_sorted_set (value_intersection v wp) = value_sorted_set v.
Proof.
  destruct v, wp; simpl; try done; intros Hsub; do 2 f_equal.
  - unfold sorted_ints. symmetry. by apply sorted_set_intersection; try apply _.
  - unfold sorted_strs. symmetry. by apply sorted_set_intersection; try apply _.
Qed.

Lemma sorted_set_ascending v s : value_sorted_set v = Ok s → ascending s.
Proof.
  destruct v; simpl; try done; intros [= <-]; simpl.
  - eapply StronglySorted_impl_strict_Z, sorted_set_strict; apply _.
  - apply sorted_set_strict; apply _.
Qed.

Lemma NoDup_partition_names cls : NoDup (working_partitions cls).*1.
Proof. destruct cls; simpl; by apply (bool_decide_unpack _). Qed.

Lemma NoDup_field_names cls : NoDup (f_name <$> fields cls).
Proof. destruct cls; simpl; by apply (bool_decide_unpack _). Qed.

(** Every partition is a field: the field has the partition's name, the
    working partition as its default, an annotation of the same shape,
    and no validator except [allow_all_keyword] on the states of
    [EpaCemsSettings]. *)
Ltac pick_field :=
  lazymatch goal with
  | |- ∃ f, f ∈ ?l ∧ _ =>
      let l' := eval simpl in l in
      let rec go l :=
        lazymatch l with
        | ?x :: ?l' =>
            first [ exists x; split;
                    [apply list_elem_of_In; simpl; tauto | by repeat split]
                  | go l' ]
        end in
      go l'
  end.

Lemma partition_field cls n wp :
  (n, wp) ∈ working_partitions cls →
  ∃ f, f ∈ fields cls ∧ f_name f = n ∧ f_default f = wp
       ∧ fits (f_type f) wp = true
       ∧ f_validators f
         = (if bool_decide (cls = EpaCemsSettings ∧ n = "states")
            then [allow_all_keyword] else [])
       ∧ (cls = EpaCemsSettings → n = "states" → wp = VStrs EpaCems_states).
Proof.
  intros Hin.
  destruct cls; simpl in Hin;
    repeat (apply elem_of_cons in Hin as [[= -> ->]|Hin]);
    try (by apply elem_of_nil in Hin); pick_field.
Qed.

Lemma within_refl_fits t wp :
  fits t wp = true → (t = TListInt ∨ t = TListStr) → within wp wp.
Proof. destruct t, wp; simpl; try done; intros _ [?|?]; done. Qed.

Lemma partition_annotation cls n wp f :
  (n, wp) ∈ working_partitions cls → f ∈ fields cls → f_name f = n →
  f_type f = TListInt ∨ f_type f = TListStr.
Proof.
  intros Hin Hf Hn.
  destruct cls; simpl in Hin, Hf;
    repeat (apply elem_of_cons in Hin as [[= -> ->]|Hin]);
    try (by apply elem_of_nil in Hin);
    repeat (apply elem_of_cons in Hf as [->|Hf]);
    try (by apply elem_of_nil in Hf); simpl in *; try done; auto.
Qed.

Lemma within_fits t v wp :
  fits t wp = true → within v wp → fits t v = true.
Proof. destruct t, v, wp; simpl; intros; done. Qed.


(** What the field loop leaves under a partition's name, in terms of the
    requested list. *)
Lemma partition_field_value cls data n wp f :
  (n, wp) ∈ working_partitions cls → f ∈ fields cls → f_name f = n →
  field_value f data
  = (if fits (f_type f) (requested cls data n wp)
     then Some (requested cls data n wp) else None)
  ∧ field_errors f data
    = (if fits (f_type f) (requested cls data n wp)
       then [] else [(n, WrongType)]).
Proof.
  intros Hin Hf Hn.
  destruct (partition_field cls n wp Hin) as (f' & Hf' & Hn' & Hd & Hfit & Hv & Hall).
  assert (f' = f) as ->.
  { pose proof (NoDup_field_names cls) as Hnd.
    apply list_elem_of_lookup in Hf as [i Hi], Hf' as [j Hj].
    assert (i = j) as ->; [|congruence].
    eapply NoDup_lookup; [done| |];
      rewrite list_lookup_fmap; [by rewrite Hi|by rewrite Hj; simpl; congruence]. }
  unfold field_value, field_errors, requested. rewrite Hn.
  destruct (data !! n) as [v|]; [|by rewrite Hd, Hfit].
  unfold validate_field.
  destruct (decide (cls = EpaCemsSettings ∧ n = "states" ∧ v = VStrs ["all"]))
    as [(-> & -> & ->)|Hcase].
  - rewrite bool_decide_eq_true_2 by done.
    rewrite bool_decide_eq_true_2 in Hv by done.
    specialize (Hall eq_refl eq_refl) as ->. rewrite Hfit, Hv.
    assert (fits (f_type f) (VStrs ["all"]) = true) as ->.
    { by destruct (f_type f). }
    split; reflexivity.
  - rewrite (bool_decide_eq_false_2 _ Hcase).
    destruct (fits (f_type f) v); [|done]. rewrite Hv.
    case_bool_decide as Hstates; simpl; [|done].
    unfold allow_all_keyword. destruct Hstates as [-> ->].
    rewrite bool_decide_eq_false_2; [done|]. intros ->. by apply Hcase.
Qed.

(** *** Constructing a dataset settings object *)

Lemma mjoin_fmap_nil {X Y} (g : X → list Y) (l : list X) :
  (∀ x, x ∈ l → g x = []) → mjoin (g <$> l) = [].
Proof.
  induction l as [|x l IH]; intros Hg; [done|].
  rewrite fmap_cons. simpl. rewrite Hg by left. simpl.
  apply IH. intros y Hy. apply Hg. by right.
Qed.

Lemma extra_errors_nil cfg fs (data : gmap string value) :
  (∀ k, is_Some (data !! k) → k ∈ f_name <$> fs) →
  extra_errors cfg fs data = [].
Proof.
  intros Hdom. unfold extra_errors. destruct (extra_forbid cfg); [|done].
  assert (filter (λ k, k ∉ f_name <$> fs) (map_to_list data).*1 = []) as ->;
    [|done].
  apply filter_none. intros k Hk Hnot. apply Hnot, Hdom.
  apply list_elem_of_fmap in Hk as ([k' v] & -> & Hkv).
  apply elem_of_map_to_list in Hkv. by exists v.
Qed.

(** The constructor of a dataset class, step by step. *)
Lemma new_model cls data :
  new (model cls) data
  = let values := (validate_fields (fields cls) data ∅ []).1 in
    let errors := mjoin ((λ f, field_errors f data) <$> fields cls)
                  ++ extra_errors BaseModel_Config (fields cls) data in
    match validate_partitions cls values with
    | Ok values' =>
        match errors with
        | [] => Ok (Object (name cls) values')
        | _ => Raise (ValidationError errors)
        end
    | Raise e => Raise (ValidationError (errors ++ [("__root__", e)]))
    end.
Proof.
  unfold new, validate_model. simpl.
  pose proof (validate_fields_errors (fields cls) data ∅ []) as Herr.
  destruct (validate_fields (fields cls) data ∅ []) as [values errors].
  simpl in *. subst errors.
  destruct (validate_partitions cls values) as [values'|e]; [done|].
  destruct (_ ++ [_]) eqn:E; [|done].
  by apply app_eq_nil in E as [_ ?].
Qed.

(** The value the root validator finds under a partition's name. *)
Lemma field_values_partition cls data n wp :
  (n, wp) ∈ working_partitions cls →
  ∃ f, f ∈ fields cls ∧ f_name f = n
    ∧ (f_type f = TListInt ∨ f_type f = TListStr)
    ∧ fits (f_type f) wp = true
    ∧ (validate_fields (fields cls) data ∅ []).1 !! n
      = (if fits (f_type f) (requested cls data n wp)
         then Some (requested cls data n wp) else None)
    ∧ field_errors f data
      = (if fits (f_type f) (requested cls data n wp)
         then [] else [(n, WrongType)]).
Proof.
  intros Hin.
  destruct (partition_field cls n wp Hin) as (f & Hf & Hn & _ & Hfit & _).
  exists f. repeat split; try done.
  - by eapply partition_annotation.
  - rewrite <-Hn at 1.
    rewrite validate_fields_lookup by auto using NoDup_field_names.
    destruct (partition_field_value cls data n wp f Hin Hf Hn) as [-> _].
    destruct (fits _ (requested _ _ _ _)); [done|]. apply lookup_empty.
  - by destruct (partition_field_value cls data n wp f Hin Hf Hn) as [_ ->].
Qed.

Lemma dataset_new_within cls data :
  (∀ k, is_Some (data !! k) → k ∈ f_name <$> fields cls) →
  (∀ f v, f ∈ fields cls → f_name f ∉ (working_partitions cls).*1 →
          data !! f_name f = Some v → is_ok (validate_field f v) = true) →
  (∀ n wp, (n, wp) ∈ working_partitions cls →
           within (requested cls data n wp) wp) →
  ∃ o, new (model cls) data = Ok o ∧ obj_class o = name cls
    ∧ (∀ n wp, (n, wp) ∈ working_partitions cls →
         ∃ s, value_sorted_set (requested cls data n wp) = Ok s
              ∧ obj_dict o !! n = Some s)
    ∧ (∀ f, f ∈ fields cls → f_name f ∉ (working_partitions cls).*1 →
         obj_dict o !! f_name f = field_value f data)
    ∧ (∀ k, k ∉ f_name <$> fields cls → obj_dict o !! k = None).
Proof.
  intros Hextra Hother Hwithin.
  set (values := (validate_fields (fields cls) data ∅ []).1).
  assert (∀ n wp, (n, wp) ∈ working_partitions cls →
            values !! n = Some (requested cls data n wp)) as Hvalues.
  { intros n wp Hin.
    destruct (field_values_partition cls data n wp Hin)
      as (f & _ & _ & _ & Hfit & Hval & _).
    unfold values. rewrite Hval.
    by rewrite (within_fits _ _ _ Hfit (Hwithin n wp Hin)). }
  destruct (validate_partitions_items_passes cls (working_partitions cls) values)
    as [values' Hrun]; [apply NoDup_partition_names| |].
  { intros n wp Hin. exists (requested cls data n wp).
    split; [by apply Hvalues|]. by apply within_passes, Hwithin. }
  exists (Object (name cls) values').
  rewrite new_model. fold values. simpl. unfold validate_partitions. rewrite Hrun.
  rewrite extra_errors_nil by done. rewrite mjoin_fmap_nil; last first.
  { intros f Hf. destruct (decide (f_name f ∈ (working_partitions cls).*1)) as [Hp|Hp].
    - apply list_elem_of_fmap in Hp as ([n wp] & Hn & Hin). simpl in Hn.
      destruct (field_values_partition cls data n wp Hin)
        as (f' & Hf' & Hn' & _ & Hfit & _ & Herr).
      assert (f' = f) as ->.
      { pose proof (NoDup_field_names cls) as Hnd.
        apply list_elem_of_lookup in Hf as [i Hi], Hf' as [j Hj].
        assert (j = i) as ->; [|congruence].
        eapply NoDup_lookup; [done| |];
          rewrite list_lookup_fmap; [by rewrite Hj|by rewrite Hi; simpl; congruence]. }
      by rewrite Herr, (within_fits _ _ _ Hfit (Hwithin n wp Hin)).
    - unfold field_errors. destruct (data !! f_name f) as [v|] eqn:Hv; [|done].
      specialize (Hother f v Hf Hp Hv). by destruct (validate_field f v). }
  simpl. split; [done|]. split; [done|].
  apply validate_partitions_items_Ok in Hrun as [Hin Hout];
    [|apply NoDup_partition_names].
  split; [|split].
  - intros n wp Hmem. destruct (Hin n wp Hmem) as (q & s & Hq & _ & Hs & Hp').
    rewrite (Hvalues n wp Hmem) in Hq. injection Hq as <-. by exists s.
  - intros f Hf Hp. rewrite Hout by done. unfold values.
    rewrite validate_fields_lookup by auto using NoDup_field_names.
    by destruct (field_value f data).
  - intros k Hk. destruct (decide (k ∈ (working_partitions cls).*1)) as [Hp|Hp].
    + apply list_elem_of_fmap in Hp as ([n wp] & -> & Hmem).
      destruct (partition_field cls n wp Hmem) as (f & Hf & Hn & _).
      destruct Hk. simpl. rewrite <-Hn. by apply list_elem_of_fmap_2.
    + rewrite Hout by done. unfold values.
      by rewrite validate_fields_other.
Qed.

Lemma passes_within t v wp :
  (t = TListInt ∨ t = TListStr) → fits t v = true → fits t wp = true →
  passes v wp → within v wp.
Proof.
  intros [-> | ->]; destruct v, wp; simpl; try done; intros _ _ Hp.
  - by apply passes_ints.
  - by apply passes_strs.
Qed.


Lemma sorted_set_within v wp s :
  within v wp → value_sorted_set v = Ok s → within s wp.
Proof.
  destruct v, wp; simpl; try done; intros Hsub [= <-]; simpl;
    intros x Hx; apply Hsub; revert Hx.
  - unfold sorted_ints. by rewrite elem_of_sorted_set.
  - unfold sorted_strs. by rewrite elem_of_sorted_set.
Qed.

(** An instance that was constructed: every requested list was within
    its working partition, and the field holds its sorted set. *)
Lemma dataset_new_Ok cls data o :
  new (model cls) data = Ok o →
  obj_class o = name cls
  ∧ ∀ n wp, (n, wp) ∈ working_partitions cls →
      within (requested cls data n wp) wp
      ∧ ∃ s, value_sorted_set (requested cls data n wp) = Ok s
             ∧ obj_dict o !! n = Some s.
Proof.
  rewrite new_model. simpl.
  set (values := (validate_fields (fields cls) data ∅ []).1).
  destruct (validate_partitions cls values) as [values'|] eqn:Hrun; [|done].
  destruct (_ ++ _); [|done]. intros [= <-]. split; [done|].
  apply validate_partitions_items_Ok in Hrun as [Hin _];
    [|apply NoDup_partition_names].
  intros n wp Hmem.
  destruct (Hin n wp Hmem) as (q & s & Hq & Hpass & Hs & Hp').
  destruct (field_values_partition cls data n wp Hmem)
    as (f & _ & _ & Hlist & Hfit & Hval & _).
  fold values in Hval. rewrite Hval in Hq.
  destruct (fits (f_type f) (requested cls data n wp)) eqn:Hfitv; [|done].
  injection Hq as <-. split; [by eapply passes_within|]. by exists s.
Qed.


(** *** Partitions of a validated object *)

(** C1 (amended).  For every dataset settings class and all keyword
    arguments that name fields only, in which the arguments of the other
    fields pass their validation and every requested list of years,
    tables or states has all its values in the working partition (the
    requested list being the working partition itself when the argument
    is absent or, for the states of EpaCemsSettings, is the list of the
    one keyword all), validation succeeds, and each partition field of the
    result is the sorted duplicate-free list of the intersection of the
    requested list with the working partition. *)
Theorem validate_partitions_intersection cls data :
  (∀ k, is_Some (data !! k) → k ∈ f_name <$> fields cls) →
  (∀ f v, f ∈ fields cls → f_name f ∉ (working_partitions cls).*1 →
          data !! f_name f = Some v → is_ok (validate_field f v) = true) →
  (∀ n wp, (n, wp) ∈ working_partitions cls →
           within (requested cls data n wp) wp) →
  ∃ o, new (model cls) data = Ok o
    ∧ ∀ n wp, (n, wp) ∈ working_partitions cls →
        ∃ s, value_sorted_set (value_intersection (requested cls data n wp) wp)
             = Ok s
             ∧ obj_dict o !! n = Some s.
Proof.
  intros Hextra Hother Hwithin.
  destruct (dataset_new_within cls data Hextra Hother Hwithin)
    as (o & Hnew & _ & Hparts & _).
  exists o. split; [done|]. intros n wp Hmem.
  destruct (Hparts n wp Hmem) as (s & Hs & Ho). exists s. split; [|done].
  by rewrite within_intersection by auto.
Qed.

(** C8.  Every partition field (years, tables, states) of a validated
    dataset settings object is strictly ascending: sorted, and without
    duplicates, whatever the order and the repetitions of the
    request. *)
Theorem partitions_ascending cls data o :
  new (model cls) data = Ok o →
  ∀ n wp, (n, wp) ∈ working_partitions cls →
    ∃ s, obj_dict o !! n = Some s ∧ ascending s.
Proof.
  intros Hnew n wp Hmem.
  destruct (dataset_new_Ok cls data o Hnew) as [_ Hparts].
  destruct (Hparts n wp Hmem) as (_ & s & Hs & Ho).
  exists s. split; [done|]. by eapply sorted_set_ascending.
Qed.

(** *** Errors *)


(** An argument that its field rejects makes the constructor raise, with
    the field's error among the errors. *)
Lemma new_field_error cls data f v e :
  f ∈ fields cls → data !! f_name f = Some v → validate_field f v = Raise e →
  ∃ errors, new (model cls) data = Raise (ValidationError errors)
            ∧ (f_name f, e) ∈ errors.
Proof.
  intros Hf Hv He. rewrite new_model. simpl.
  assert ((f_name f, e) ∈ mjoin ((λ f, field_errors f data) <$> fields cls)) as Hin.
  { apply list_elem_of_join. exists (field_errors f data). split.
    - unfold field_errors. rewrite Hv, He. left.
    - by apply (list_elem_of_fmap_2 (λ f, field_errors f data)). }
  destruct (validate_partitions cls _) as [values'|e'].
  - destruct (_ ++ _) as [|err errors] eqn:E.
    + apply app_eq_nil in E as [E _]. rewrite E in Hin. by apply elem_of_nil in Hin.
    + eexists. split; [done|]. rewrite <-E. apply elem_of_app. by left.
  - eexists. split; [done|]. apply elem_of_app. left. apply elem_of_app. by left.
Qed.

(** A reference year that is no working year: the error of
    [check_reference_year] shows the year and the available years. *)
Lemma reference_year_outside data y :
  data !! "refyear" = Some (VInt y) → y ∉ WORKING_PARTITIONS_years "ferc1" →
  ∃ errors,
    new (model Ferc1ToSqliteSettings) data = Raise (ValidationError errors)
    ∧ ("refyear", ReferenceYear y (VInts (WORKING_PARTITIONS_years "ferc1")))
      ∈ errors.
Proof.
  intros Hy Hout.
  apply (new_field_error Ferc1ToSqliteSettings data
           (Field "refyear" TInt (VInt (refyear_default WORKING_PARTITIONS_years))
              [check_reference_year WORKING_PARTITIONS_years]) (VInt y)).
  - simpl. right. right. left.
  - done.
  - unfold validate_field. simpl. unfold in_.
    by rewrite bool_decide_eq_false_2.
Qed.

(** *** The eia860m date *)

Lemma eia860m_year : to_datetime_year eia860m_date = Ok 2020%Z.
Proof. reflexivity. Qed.

Lemma check_860m_date_Raise b :
  (∃ e, check_860m_date (VBool b) = Raise e)
  ↔ b = true
    ∧ ¬ ∃ newest, max_ (WORKING_PARTITIONS_years "eia860") = Ok newest
                  ∧ (2020 = newest + 1)%Z.
Proof.
  unfold check_860m_date. rewrite eia860m_year. simpl.
  destruct b; [|split; [by intros [? ?]|by intros [? _]]].
  destruct (max_ (WORKING_PARTITIONS_years "eia860")) as [newest|e0]; simpl.
  - case_bool_decide as Hne; split.
    + intros _. split; [done|]. intros (? & [= <-] & ?). done.
    + intros _. by eexists.
    + by intros [? ?].
    + intros [_ Hnot]. destruct Hnot. exists newest. split; [done|].
      destruct (decide (2020 = newest + 1)%Z); [done|]. by destruct Hne.
  - split; [|intros _; by eexists].
    intros _. split; [done|]. by intros (? & ? & _).
Qed.

(** C10.  For Eia860Settings with the argument eia860m given as a bool
    (and the other arguments valid), validation raises if and only if
    eia860m is True and the year 2020 of eia860m_date is not the maximum
    working EIA860 year plus one; so does the check itself, which never
    fails for False. *)
Theorem check_860m_date_fails data b :
  data !! "eia860m" = Some (VBool b) →
  (∀ k, is_Some (data !! k) → k ∈ f_name <$> fields Eia860Settings) →
  (∀ n wp, (n, wp) ∈ working_partitions Eia860Settings →
           within (requested Eia860Settings data n wp) wp) →
  to_datetime_year eia860m_date = Ok 2020%Z
  ∧ ((∃ e, check_860m_date (VBool b) = Raise e)
     ↔ b = true
       ∧ ¬ ∃ newest, max_ (WORKING_PARTITIONS_years "eia860") = Ok newest
                     ∧ (2020 = newest + 1)%Z)
  ∧ ((∃ e, new (model Eia860Settings) data = Raise e)
     ↔ b = true
       ∧ ¬ ∃ newest, max_ (WORKING_PARTITIONS_years "eia860") = Ok newest
                     ∧ (2020 = newest + 1)%Z)
  ∧ check_860m_date (VBool false) = Ok (VBool false).
Proof.
  intros Hb Hextra Hwithin. split; [apply eia860m_year|].
  split; [apply check_860m_date_Raise|]. split; [|done].
  rewrite <-check_860m_date_Raise.
  set (f := Field "eia860m" TBool (VBool false) [check_860m_date]).
  assert (f ∈ fields Eia860Settings) as Hf.
  { simpl. right. right. left. }
  assert (validate_field f (VBool b)
          = let! v := check_860m_date (VBool b) in Ok v) as Hvalidate by done.
  split.
  - intros [e Hraise].
    destruct (check_860m_date (VBool b)) as [v|e'] eqn:Hcheck; [|by eexists].
    destruct (dataset_new_within Eia860Settings data) as (o & Hnew & _);
      [done| |done|congruence].
    intros g v' Hg Hpart Hv'. simpl in Hg.
    repeat (apply elem_of_cons in Hg as [->|Hg]); simpl in *.
    + destruct Hpart. right. left.
    + destruct Hpart. left.
    + assert (v' = VBool b) as -> by congruence.
      fold f. by rewrite Hvalidate.
    + by apply elem_of_nil in Hg.
  - intros [e Hcheck].
    destruct (new_field_error Eia860Settings data f (VBool b) e) as (errors & -> & _);
      [done|done| |by eexists].
    by rewrite Hvalidate, Hcheck.
Qed.

(** *** The keyword all *)

Lemma EpaCems_states_fixed :
  sorted_strs (set_ EpaCems_states) = EpaCems_states.
Proof. unfold EpaCems_states, sorted_strs. apply sorted_set_idemp; apply _. Qed.

(** C5.  For EpaCemsSettings with states given as the one-element list of
    the keyword all (and years absent or within the working years),
    validation succeeds and the states field is the full list of working
    states, that is the sorted set of EPACEMS_STATES. *)
Theorem allow_all_keyword_expands data :
  data !! "states" = Some (VStrs ["all"]) →
  (∀ k, is_Some (data !! k) → k ∈ f_name <$> fields EpaCemsSettings) →
  within (requested EpaCemsSettings data "years"
            (VInts (WORKING_PARTITIONS_years "epacems")))
         (VInts (WORKING_PARTITIONS_years "epacems")) →
  ∃ o, new (model EpaCemsSettings) data = Ok o
    ∧ obj_dict o !! "states" = Some (VStrs EpaCems_states)
    ∧ allow_all_keyword (VStrs ["all"]) = Ok (VStrs EpaCems_states)
    ∧ (∀ s, s ∈ EpaCems_states ↔ s ∈ EPACEMS_STATES).
Proof.
  intros Hall Hextra Hyears.
  destruct (dataset_new_within EpaCemsSettings data) as (o & Hnew & _ & Hparts & _).
  - done.
  - intros f v Hf Hpart Hv. simpl in Hf.
    repeat (apply elem_of_cons in Hf as [->|Hf]); simpl in *.
    + destruct Hpart. right. left.
    + destruct Hpart. left.
    + by apply elem_of_nil in Hf.
  - intros n wp Hmem. simpl in Hmem.
    repeat (apply elem_of_cons in Hmem as [[= -> ->]|Hmem]).
    + unfold requested. rewrite Hall. rewrite bool_decide_eq_true_2 by done.
      by intros ??.
    + done.
    + by apply elem_of_nil in Hmem.
  - exists o. split; [done|].
    destruct (Hparts "states" (VStrs EpaCems_states)) as (s & Hs & Ho); [left|].
    unfold requested in Hs. rewrite Hall in Hs.
    rewrite bool_decide_eq_true_2 in Hs by done. simpl in Hs.
    rewrite EpaCems_states_fixed in Hs. injection Hs as <-.
    split; [done|]. split; [done|].
    intros s. unfold EpaCems_states, sorted_strs. by rewrite elem_of_sorted_set.
Qed.

(** *** Instances and defaults *)

(** The years of an instance: ascending, and working years. *)
Lemma instance_years cls data o k :
  new (model cls) data = Ok o →
  ("years", VInts k) ∈ working_partitions cls →
  ∃ ys, obj_dict o !! "years" = Some (VInts ys)
        ∧ StronglySorted (strict Z.le) ys ∧ ys ⊆ k.
Proof.
  intros Hnew Hmem.
  destruct (dataset_new_Ok cls data o Hnew) as [_ Hparts].
  destruct (Hparts _ _ Hmem) as (Hwithin & s & Hs & Ho).
  destruct (requested cls data "years" (VInts k)) as [| |l| |]; try done.
  simpl in Hs, Hwithin. injection Hs as <-.
  exists (sorted_ints (set_ l)). split; [done|]. split.
  - apply sorted_set_strict; apply _.
  - intros x. unfold sorted_ints. rewrite elem_of_sorted_set by apply _.
    apply Hwithin.
Qed.

Lemma requested_absent cls data n wp :
  data !! n = None → requested cls data n wp = wp.
Proof. unfold requested. by intros ->. Qed.

Lemma requested_given cls data n wp v :
  data !! n = Some v → v ≠ VStrs ["all"] → requested cls data n wp = v.
Proof.
  unfold requested. intros -> Hv.
  rewrite bool_decide_eq_false_2; [done|]. by intros (_ & _ & ?).
Qed.

Lemma working_partition_within cls n wp :
  (n, wp) ∈ working_partitions cls → within wp wp.
Proof.
  intros Hmem.
  destruct (partition_field cls n wp Hmem) as (f & Hf & Hn & _ & Hfit & _).
  eapply within_refl_fits; [done|]. by eapply partition_annotation.
Qed.

(** [cls()]: the constructor without arguments returns, with every
    partition at the sorted set of its working partition. *)
Lemma dataset_new_default cls :
  ∃ o, new (model cls) ∅ = Ok o ∧ obj_class o = name cls
    ∧ (∀ n wp, (n, wp) ∈ working_partitions cls →
         ∃ s, value_sorted_set wp = Ok s ∧ obj_dict o !! n = Some s)
    ∧ (∀ f, f ∈ fields cls → f_name f ∉ (working_partitions cls).*1 →
         obj_dict o !! f_name f = Some (f_default f))
    ∧ (∀ k, k ∉ f_name <$> fields cls → obj_dict o !! k = None).
Proof.
  destruct (dataset_new_within cls ∅) as (o & Hnew & Hcls & Hparts & Hother & Hnone).
  - intros k [v Hk]. by rewrite lookup_empty in Hk.
  - intros f v _ _ Hv. by rewrite lookup_empty in Hv.
  - intros n wp Hmem. rewrite requested_absent by apply lookup_empty.
    by eapply working_partition_within.
  - exists o. split; [done|]. split; [done|]. split; [|split; [|done]].
    + intros n wp Hmem. destruct (Hparts n wp Hmem) as (s & Hs & Ho).
      rewrite requested_absent in Hs by apply lookup_empty. by exists s.
    + intros f Hf Hp. rewrite Hother by done.
      unfold field_value. by rewrite lookup_empty.
Qed.

Lemma Eia923_minimal_tables :
  sorted_strs (set_ ["boiler_fuel_eia923"; "generation_eia923"])
  = ["boiler_fuel_eia923"; "generation_eia923"]
  ∧ ["boiler_fuel_eia923"; "generation_eia923"] ⊆ Eia923_tables.
Proof.
  split; [by vm_compute|].
  intros x Hx. apply list_elem_of_In. apply list_elem_of_In in Hx.
  vm_compute in Hx |- *. tauto.
Qed.

Lemma Eia860_tables_sorted :
  Eia860_tables
  = [ "boiler_generator_assn_eia860"; "generators_eia860"; "ownership_eia860";
      "plants_eia860"; "utilities_eia860" ]
  ∧ sorted_strs (set_ Eia860_tables) = Eia860_tables.
Proof. split; by vm_compute. Qed.

Lemma Ferc1_tables_sorted :
  Ferc1_tables
  = [ "fuel_ferc1"; "plant_in_service_ferc1"; "plants_hydro_ferc1";
      "plants_pumped_storage_ferc1"; "plants_small_ferc1";
      "plants_steam_ferc1"; "purchased_power_ferc1" ]
  ∧ sorted_strs (set_ Ferc1_tables) = Ferc1_tables.
Proof. split; by vm_compute. Qed.

(** [Eia923Settings(tables=['boiler_fuel_eia923', 'generation_eia923'],
    years=ys)] for ascending working years [ys]. *)
Lemma new_Eia923_minimal ys :
  StronglySorted (strict Z.le) ys → ys ⊆ WORKING_PARTITIONS_years "eia923" →
  new (model Eia923Settings)
    {[ "tables" := VStrs ["boiler_fuel_eia923"; "generation_eia923"];
       "years" := VInts ys ]}
  = Ok (Object "Eia923Settings"
          {[ "tables" := VStrs ["boiler_fuel_eia923"; "generation_eia923"];
             "years" := VInts ys ]}).
Proof.
  intros Hsorted Hsub.
  set (data := ({[ "tables" := VStrs ["boiler_fuel_eia923"; "generation_eia923"];
                   "years" := VInts ys ]} : gmap string value)).
  assert (data !! "tables"
          = Some (VStrs ["boiler_fuel_eia923"; "generation_eia923"])) as Htables by done.
  assert (data !! "years" = Some (VInts ys)) as Hyears by done.
  destruct (dataset_new_within Eia923Settings data)
    as (o & Hnew & Hcls & Hparts & _ & Hnone).
  - intros k [v Hk]. unfold data in Hk.
    apply lookup_insert_Some in Hk as [[<- _]|[_ Hk]]; [right; left|].
    apply lookup_singleton_Some in Hk as [<- _]. left.
  - intros f v Hf Hp _. simpl in Hf.
    repeat (apply elem_of_cons in Hf as [->|Hf]); simpl in *.
    + destruct Hp. right. left.
    + destruct Hp. left.
    + by apply elem_of_nil in Hf.
  - intros n wp Hmem. simpl in Hmem.
    repeat (apply elem_of_cons in Hmem as [[= -> ->]|Hmem]).
    + rewrite (requested_given _ _ _ _ _ Htables) by done.
      apply Eia923_minimal_tables.
    + by rewrite (requested_given _ _ _ _ _ Hyears).
    + by apply elem_of_nil in Hmem.
  - rewrite Hnew. destruct o as [c d]. simpl in *. f_equal. f_equal; [done|].
    destruct (Hparts "tables" (VStrs Eia923_tables)) as (s1 & Hs1 & Ho1); [left|].
    destruct (Hparts "years" (VInts (WORKING_PARTITIONS_years "eia923")))
      as (s2 & Hs2 & Ho2); [right; left|].
    rewrite (requested_given _ _ _ _ _ Htables) in Hs1 by done.
    rewrite (requested_given _ _ _ _ _ Hyears) in Hs2 by done.
    cbn [value_sorted_set] in Hs1, Hs2.
    rewrite (proj1 Eia923_minimal_tables) in Hs1. injection Hs1 as <-.
    unfold sorted_ints in Hs2. rewrite sorted_set_fixed in Hs2 by (done || apply _).
    injection Hs2 as <-.
    apply map_eq. intros k. unfold data.
    destruct (decide (k = "tables")) as [->|Ht]; [by rewrite Ho1|].
    destruct (decide (k = "years")) as [->|Hy]; [by rewrite Ho2|].
    rewrite Hnone.
    + symmetry. apply lookup_insert_None. split; [|done].
      by apply lookup_singleton_None.
    + simpl. intros Hk. repeat (apply elem_of_cons in Hk as [?|Hk]); try done.
      by apply elem_of_nil in Hk.
Qed.

(** [Eia860Settings(years=ys)] for ascending working years [ys]. *)
Lemma new_Eia860_years ys :
  StronglySorted (strict Z.le) ys → ys ⊆ WORKING_PARTITIONS_years "eia860" →
  new (model Eia860Settings) {[ "years" := VInts ys ]}
  = Ok (Object "Eia860Settings"
          {[ "years" := VInts ys; "tables" := VStrs Eia860_tables;
             "eia860m" := VBool false ]}).
Proof.
  intros Hsorted Hsub.
  set (data := ({[ "years" := VInts ys ]} : gmap string value)).
  assert (data !! "years" = Some (VInts ys)) as Hyears by done.
  assert (data !! "tables" = None) as Htables by done.
  assert (data !! "eia860m" = None) as Hm by done.
  destruct (dataset_new_within Eia860Settings data)
    as (o & Hnew & Hcls & Hparts & Hother & Hnone).
  - intros k [v Hk]. unfold data in Hk.
    apply lookup_singleton_Some in Hk as [<- _]. left.
  - intros f v Hf Hp Hv. simpl in Hf.
    repeat (apply elem_of_cons in Hf as [->|Hf]); simpl in *.
    + destruct Hp. right. left.
    + destruct Hp. left.
    + congruence.
    + by apply elem_of_nil in Hf.
  - intros n wp Hmem. simpl in Hmem.
    repeat (apply elem_of_cons in Hmem as [[= -> ->]|Hmem]).
    + rewrite requested_absent by done. by intros ??.
    + by rewrite (requested_given _ _ _ _ _ Hyears).
    + by apply elem_of_nil in Hmem.
  - rewrite Hnew. destruct o as [c d]. simpl in *. f_equal. f_equal; [done|].
    destruct (Hparts "tables" (VStrs Eia860_tables)) as (s1 & Hs1 & Ho1); [left|].
    destruct (Hparts "years" (VInts (WORKING_PARTITIONS_years "eia860")))
      as (s2 & Hs2 & Ho2); [right; left|].
    rewrite requested_absent in Hs1 by done.
    rewrite (requested_given _ _ _ _ _ Hyears) in Hs2 by done.
    cbn [value_sorted_set] in Hs1, Hs2.
    rewrite (proj2 Eia860_tables_sorted) in Hs1. injection Hs1 as <-.
    unfold sorted_ints in Hs2. rewrite sorted_set_fixed in Hs2 by (done || apply _).
    injection Hs2 as <-.
    specialize (Hother (Field "eia860m" TBool (VBool false) [check_860m_date])).
    simpl in Hother. unfold field_value in Hother. simpl in Hother.
    rewrite Hm in Hother.
    apply map_eq. intros k. unfold data.
    destruct (decide (k = "years")) as [->|Hy]; [by rewrite Ho2|].
    destruct (decide (k = "tables")) as [->|Ht]; [by rewrite Ho1|].
    destruct (decide (k = "eia860m")) as [->|He].
    + rewrite Hother; [done|right; right; left|].
      intros Hk. repeat (apply elem_of_cons in Hk as [?|Hk]); try done.
      by apply elem_of_nil in Hk.
    + rewrite Hnone.
      * symmetry. repeat (apply lookup_insert_None; split; [|done]).
        apply lookup_empty.
      * intros Hk. repeat (apply elem_of_cons in Hk as [?|Hk]); try done.
        by apply elem_of_nil in Hk.
Qed.

(** *** The dependencies between the EIA datasets *)

Lemma validate_present loc c kw a o errors :
  new c kw = Ok o → a = ArgDict kw ∨ a = ArgModel o →
  validate_object_field loc c (Some a) errors = (Some o, errors).
Proof.
  intros Hnew [-> | ->]; unfold validate_object_field; simpl; [by rewrite Hnew|].
  unfold foreign_object. rewrite bool_decide_eq_true_2; [done|].
  unfold new in Hnew. destruct (validate_model c kw) as [values [|??]]; [|done].
  by injection Hnew as <-.
Qed.

Lemma validate_none loc c a errors :
  a = None ∨ a = Some ArgNone →
  validate_object_field loc c a errors = (None, errors).
Proof. by intros [-> | ->]. Qed.

(** Years that such a constructor accepts are working years. *)
Lemma years_accepted cls data o ys k :
  new (model cls) data = Ok o →
  ("years", VInts k) ∈ working_partitions cls →
  data !! "years" = Some (VInts ys) →
  ys ⊆ k.
Proof.
  intros Hnew Hmem Hys.
  destruct (dataset_new_Ok cls data o Hnew) as [_ Hparts].
  destruct (Hparts _ _ Hmem) as [Hwithin _].
  by rewrite (requested_given _ _ _ _ _ Hys) in Hwithin.
Qed.

(** The dependency step for eia860 settings [o860] with years [ys] and no
    eia923 settings: it returns exactly when the years are EIA923 working
    years, and then with the minimal eia923 settings. *)
Lemma eia860_alone a e923 kw o860 ys :
  new (model Eia860Settings) kw = Ok o860 →
  a = ArgDict kw ∨ a = ArgModel o860 →
  e923 = None ∨ e923 = Some ArgNone →
  obj_dict o860 !! "years" = Some (VInts ys) →
  StronglySorted (strict Z.le) ys →
  (ys ⊆ WORKING_PARTITIONS_years "eia923" →
   EiaSettings_new {| data_eia860 := Some a; data_eia923 := e923 |}
   = Ok {| eia860 := Some o860;
           eia923 :=
             Some (Object "Eia923Settings"
                     {[ "tables" := VStrs ["boiler_fuel_eia923";
                                           "generation_eia923"];
                        "years" := VInts ys ]}) |})
  ∧ (∀ r, EiaSettings_new {| data_eia860 := Some a; data_eia923 := e923 |} = Ok r →
          ys ⊆ WORKING_PARTITIONS_years "eia923").
Proof.
  intros Hnew Ha He Hys Hsorted.
  unfold Settings.EiaSettings_new. cbn [data_eia860 data_eia923].
  rewrite (validate_present _ _ kw a o860) by done.
  rewrite validate_none by done.
  unfold check_eia_dependencies. simpl. unfold getattr. rewrite Hys. simpl.
  split.
  - intros Hsub. by rewrite new_Eia923_minimal.
  - intros r Hr.
    destruct (new (model Eia923Settings) _) as [o923|e] eqn:H923; [|done].
    eapply (years_accepted Eia923Settings); [done|right; left|done].
Qed.

(** C3.  For every EiaSettings constructed with eia860 settings (a dict
    of valid arguments, or an instance) and without eia923 settings
    (absent or None), validation sets eia923 to the Eia923Settings with
    exactly the tables boiler_fuel_eia923 and generation_eia923 and with
    the years of the eia860 settings.  It succeeds when these years are
    working years of EIA923, as they always are when the working years of
    EIA860 are among those of EIA923; it cannot succeed with another
    result. *)
Theorem eia860_populates_eia923 kw a e923 o860 :
  new (model Eia860Settings) kw = Ok o860 →
  a = ArgDict kw ∨ a = ArgModel o860 →
  e923 = None ∨ e923 = Some ArgNone →
  ∃ ys populated,
    obj_dict o860 !! "years" = Some (VInts ys)
    ∧ populated
      = {| eia860 := Some o860;
           eia923 :=
             Some (Object "Eia923Settings"
                     {[ "tables" := VStrs ["boiler_fuel_eia923";
                                           "generation_eia923"];
                        "years" := VInts ys ]}) |}
    ∧ (WORKING_PARTITIONS_years "eia860" ⊆ WORKING_PARTITIONS_years "eia923" →
       EiaSettings_new {| data_eia860 := Some a; data_eia923 := e923 |}
       = Ok populated)
    ∧ (ys ⊆ WORKING_PARTITIONS_years "eia923" →
       EiaSettings_new {| data_eia860 := Some a; data_eia923 := e923 |}
       = Ok populated)
    ∧ (∀ r, EiaSettings_new {| data_eia860 := Some a; data_eia923 := e923 |} = Ok r →
            r = populated).
Proof.
  intros Hnew Ha He.
  destruct (instance_years Eia860Settings kw o860
              (WORKING_PARTITIONS_years "eia860") Hnew) as (ys & Hys & Hsorted & Hwork);
    [right; left|].
  destruct (eia860_alone a e923 kw o860 ys Hnew Ha He Hys Hsorted) as [Hok Honly].
  exists ys. eexists. split; [done|]. split; [done|]. split; [|split; [done|]].
  - intros Hsub. apply Hok. intros y Hy. by apply Hsub, Hwork.
  - intros r Hr. pose proof (Hok (Honly r Hr)) as Hr'. congruence.
Qed.

Lemma eia923_alone a e860 kw o923 ys :
  new (model Eia923Settings) kw = Ok o923 →
  a = ArgDict kw ∨ a = ArgModel o923 →
  e860 = None ∨ e860 = Some ArgNone →
  obj_dict o923 !! "years" = Some (VInts ys) →
  StronglySorted (strict Z.le) ys →
  (ys ⊆ WORKING_PARTITIONS_years "eia860" →
   EiaSettings_new {| data_eia860 := e860; data_eia923 := Some a |}
   = Ok {| eia860 :=
             Some (Object "Eia860Settings"
                     {[ "years" := VInts ys;
                        "tables" := VStrs Eia860_tables;
                        "eia860m" := VBool false ]});
           eia923 := Some o923 |})
  ∧ (∀ r, EiaSettings_new {| data_eia860 := e860; data_eia923 := Some a |} = Ok r →
          ys ⊆ WORKING_PARTITIONS_years "eia860").
Proof.
  intros Hnew Ha He Hys Hsorted.
  unfold Settings.EiaSettings_new. cbn [data_eia860 data_eia923].
  rewrite validate_none by done.
  rewrite (validate_present _ _ kw a o923) by done.
  unfold check_eia_dependencies. simpl. unfold getattr. rewrite Hys. simpl.
  split.
  - intros Hsub. by rewrite new_Eia860_years.
  - intros r Hr.
    destruct (new (model Eia860Settings) _) as [o860|e] eqn:H860; [|done].
    eapply (years_accepted Eia860Settings); [done|right; left|done].
Qed.

(** C9.  For every EiaSettings constructed with eia923 settings (a dict
    of valid arguments, or an instance) and without eia860 settings
    (absent or None), validation sets eia860 to the Eia860Settings with
    the years of the eia923 settings, the full default list of EIA860
    tables and eia860m False.  It succeeds when these years are working
    years of EIA860, as they always are when the working years of EIA923
    are among those of EIA860; it cannot succeed with another result. *)
Theorem eia923_populates_eia860 kw a e860 o923 :
  new (model Eia923Settings) kw = Ok o923 →
  a = ArgDict kw ∨ a = ArgModel o923 →
  e860 = None ∨ e860 = Some ArgNone →
  ∃ ys populated,
    obj_dict o923 !! "years" = Some (VInts ys)
    ∧ populated
      = {| eia860 :=
             Some (Object "Eia860Settings"
                     {[ "years" := VInts ys;
                        "tables" := VStrs Eia860_tables;
                        "eia860m" := VBool false ]});
           eia923 := Some o923 |}
    ∧ Eia860_tables
      = [ "boiler_generator_assn_eia860"; "generators_eia860";
          "ownership_eia860"; "plants_eia860"; "utilities_eia860" ]
    ∧ (WORKING_PARTITIONS_years "eia923" ⊆ WORKING_PARTITIONS_years "eia860" →
       EiaSettings_new {| data_eia860 := e860; data_eia923 := Some a |}
       = Ok populated)
    ∧ (ys ⊆ WORKING_PARTITIONS_years "eia860" →
       EiaSettings_new {| data_eia860 := e860; data_eia923 := Some a |}
       = Ok populated)
    ∧ (∀ r, EiaSettings_new {| data_eia860 := e860; data_eia923 := Some a |} = Ok r →
            r = populated).
Proof.
  intros Hnew Ha He.
  destruct (instance_years Eia923Settings kw o923
              (WORKING_PARTITIONS_years "eia923") Hnew) as (ys & Hys & Hsorted & Hwork);
    [right; left|].
  destruct (eia923_alone a e860 kw o923 ys Hnew Ha He Hys Hsorted) as [Hok Honly].
  exists ys. eexists. split; [done|]. split; [done|].
  split; [apply Eia860_tables_sorted|]. split; [|split; [done|]].
  - intros Hsub. apply Hok. intros y Hy. by apply Hsub, Hwork.
  - intros r Hr. pose proof (Hok (Honly r Hr)) as Hr'. congruence.
Qed.

(** *** No dataset specified *)

Lemma new_Ferc1_default :
  new (model Ferc1Settings) ∅
  = Ok (Object "Ferc1Settings"
          {[ "years" := VInts (sorted_ints (set_ (WORKING_PARTITIONS_years "ferc1")));
             "tables" := VStrs Ferc1_tables ]}).
Proof.
  destruct (dataset_new_default Ferc1Settings) as (o & Hnew & Hcls & Hparts & _ & Hnone).
  rewrite Hnew. destruct o as [c d]. simpl in *. f_equal. f_equal; [done|].
  destruct (Hparts "tables" (VStrs Ferc1_tables)) as (s1 & Hs1 & Ho1); [left|].
  destruct (Hparts "years" (VInts (WORKING_PARTITIONS_years "ferc1")))
    as (s2 & Hs2 & Ho2); [right; left|].
  cbn [value_sorted_set] in Hs1, Hs2.
  rewrite (proj2 Ferc1_tables_sorted) in Hs1. injection Hs1 as <-.
  injection Hs2 as <-.
  apply map_eq. intros k.
  destruct (decide (k = "years")) as [->|Hy]; [by rewrite Ho2|].
  destruct (decide (k = "tables")) as [->|Ht]; [by rewrite Ho1|].
  rewrite Hnone.
  - symmetry. repeat (apply lookup_insert_None; split; [|done]).
    apply lookup_empty.
  - intros Hk. repeat (apply elem_of_cons in Hk as [?|Hk]); try done.
    by apply elem_of_nil in Hk.
Qed.

Lemma new_GlueSettings_default :
  new GlueSettings ∅
  = Ok (Object "GlueSettings" {[ "eia" := VBool true; "ferc1" := VBool true ]}).
Proof. by vm_compute. Qed.

Lemma EiaSettings_new_default :
  EiaSettings_new {| data_eia860 := None; data_eia923 := None |}
  = Ok {| eia860 := None; eia923 := None |}.
Proof. reflexivity. Qed.

(** A falsy argument for a dataset field is absent, [None] or the empty
    dict; the field is then [None] or the class's default instance. *)
Lemma validate_falsy loc c d (a : option (model_arg (gmap string value) object))
    errors :
  from_option (arg_truthy dict_nonempty) false a = false →
  new c ∅ = Ok d →
  validate_object_field loc c a errors = (None, errors)
  ∨ validate_object_field loc c a errors = (Some d, errors).
Proof.
  intros Hfalsy Hnew. unfold validate_object_field.
  destruct a as [[|kw|m]|]; simpl in *; auto; [|done].
  unfold dict_nonempty in Hfalsy. apply bool_decide_eq_false in Hfalsy.
  assert (kw = ∅) as ->.
  { destruct (decide (kw = ∅)); [done|]. by destruct Hfalsy. }
  rewrite Hnew. by right.
Qed.

(** C4.  For every DatasetsSettings constructed with no dataset specified
    (each of ferc1, eia, glue, epacems absent, None or an empty dict),
    default_load_all sets ferc1 to Ferc1Settings() and eia to
    EiaSettings(), and validation succeeds with these two: ferc1 holds
    the sorted working years and the FERC1 tables, eia holds neither
    eia860 nor eia923 settings. *)
Theorem default_load_all_defaults data :
  any_values data = false →
  ∃ r f e,
    f = Object "Ferc1Settings"
          {[ "years" := VInts (sorted_ints (set_ (WORKING_PARTITIONS_years "ferc1")));
             "tables" := VStrs Ferc1_tables ]}
    ∧ e = {| eia860 := None; eia923 := None |}
    ∧ new (model Ferc1Settings) ∅ = Ok f
    ∧ EiaSettings_new {| data_eia860 := None; data_eia923 := None |} = Ok e
    ∧ default_load_all data
      = Ok {| data_ferc1 := Some (ArgModel f);
              data_eia := Some (ArgModel e);
              data_glue := data_glue data;
              data_epacems := data_epacems data |}
    ∧ DatasetsSettings_new data = Ok r
    ∧ ferc1 r = Some f
    ∧ eia r = Some e.
Proof.
  intros Hany. pose proof Hany as Hfalsy.
  unfold any_values in Hfalsy.
  apply orb_false_elim in Hfalsy as [Hfalsy Hepacems].
  apply orb_false_elim in Hfalsy as [_ Hglue].
  destruct (dataset_new_default EpaCemsSettings) as (dcems & Hcems & _).
  assert (default_load_all data
          = Ok {| data_ferc1 := Some (ArgModel
                    (Object "Ferc1Settings"
                       {[ "years" := VInts (sorted_ints (set_ (WORKING_PARTITIONS_years "ferc1")));
                          "tables" := VStrs Ferc1_tables ]}));
                  data_eia := Some (ArgModel {| eia860 := None; eia923 := None |});
                  data_glue := data_glue data;
                  data_epacems := data_epacems data |}) as Hpre.
  { unfold default_load_all. rewrite Hany. cbn [negb].
    by rewrite new_Ferc1_default, EiaSettings_new_default. }
  assert (∃ r, DatasetsSettings_new data = Ok r
               ∧ ferc1 r = Some (Object "Ferc1Settings"
                       {[ "years" := VInts (sorted_ints (set_ (WORKING_PARTITIONS_years "ferc1")));
                          "tables" := VStrs Ferc1_tables ]})
               ∧ eia r = Some {| eia860 := None; eia923 := None |})
    as (r & Hr & Hf & He).
  { unfold DatasetsSettings_new. rewrite Hpre.
    cbn [data_ferc1 data_eia data_glue data_epacems].
    rewrite (validate_present "ferc1" (model Ferc1Settings) ∅ _ _ [] new_Ferc1_default)
      by by right.
    cbn [validate_model_field validate_model_arg].
    destruct (validate_falsy "glue" GlueSettings _ (data_glue data) []
                Hglue new_GlueSettings_default) as [-> | ->];
      destruct (validate_falsy "epacems" (model EpaCemsSettings) _
                  (data_epacems data) [] Hepacems Hcems) as [-> | ->];
      unfold add_glue_settings; cbn [ferc1 eia glue epacems truthy andb];
      rewrite new_GlueSettings_default; by eexists. }
  exists r. eexists _, _. split; [done|]. split; [done|].
  split; [apply new_Ferc1_default|]. split; [apply EiaSettings_new_default|].
  done.
Qed.

(** *** Immutability *)



(** *** More on the constructors *)

Lemma mjoin_fmap_nil_inv {X Y} (g : X → list Y) (l : list X) :
  mjoin (g <$> l) = [] → ∀ x, x ∈ l → g x = [].
Proof.
  induction l as [|x l IH]; intros Hnil y Hy; [by apply elem_of_nil in Hy|].
  rewrite fmap_cons in Hnil. simpl in Hnil.
  apply app_eq_nil in Hnil as [Hx Hl].
  apply elem_of_cons in Hy as [->|Hy]; auto.
Qed.

Lemma extra_errors_nil_inv cfg fs (data : gmap string value) :
  extra_forbid cfg = true → extra_errors cfg fs data = [] →
  ∀ k, is_Some (data !! k) → k ∈ f_name <$> fs.
Proof.
  unfold extra_errors. intros -> Hnil k [v Hk].
  apply fmap_nil_inv in Hnil.
  destruct (decide (k ∈ f_name <$> fs)) as [|Hout]; [done|].
  assert (k ∈ sorted_strs (filter (λ k, k ∉ f_name <$> fs) (map_to_list data).*1))
    as Hin.
  { unfold sorted_strs. rewrite merge_sort_Permutation.
    apply list_elem_of_filter. split; [done|].
    apply list_elem_of_fmap. exists (k, v). split; [done|].
    by apply elem_of_map_to_list. }
  rewrite Hnil in Hin. by apply elem_of_nil in Hin.
Qed.

(** The conditions under which a dataset constructor returns: exactly
    those of [dataset_new_within]. *)
Lemma dataset_new_Ok_conditions cls data o :
  new (model cls) data = Ok o →
  (∀ k, is_Some (data !! k) → k ∈ f_name <$> fields cls)
  ∧ (∀ f v, f ∈ fields cls → data !! f_name f = Some v →
            is_ok (validate_field f v) = true)
  ∧ (∀ n wp, (n, wp) ∈ working_partitions cls →
             within (requested cls data n wp) wp).
Proof.
  intros Hnew. split; [|split].
  - rewrite new_model in Hnew. simpl in Hnew.
    destruct (validate_partitions cls _); [|done].
    destruct (_ ++ _) eqn:E; [|done]. apply app_eq_nil in E as [_ E].
    by apply (extra_errors_nil_inv BaseModel_Config).
  - intros f v Hf Hv. rewrite new_model in Hnew. simpl in Hnew.
    destruct (validate_partitions cls _); [|done].
    destruct (_ ++ _) eqn:E; [|done]. apply app_eq_nil in E as [E _].
    eapply mjoin_fmap_nil_inv in E; [|done]. simpl in E.
    unfold field_errors in E. rewrite Hv in E.
    by destruct (validate_field f v).
  - intros n wp Hmem. by apply (dataset_new_Ok cls data o Hnew).
Qed.

(** The instance a dataset constructor returns, field by field. *)
Lemma dataset_new_Ok_fields cls data o :
  new (model cls) data = Ok o →
  obj_class o = name cls
  ∧ (∀ n wp, (n, wp) ∈ working_partitions cls →
       ∃ s, value_sorted_set (requested cls data n wp) = Ok s
            ∧ obj_dict o !! n = Some s)
  ∧ (∀ f, f ∈ fields cls → f_name f ∉ (working_partitions cls).*1 →
       obj_dict o !! f_name f = field_value f data)
  ∧ (∀ k, k ∉ f_name <$> fields cls → obj_dict o !! k = None).
Proof.
  intros Hnew.
  destruct (dataset_new_Ok_conditions cls data o Hnew) as (H1 & H2 & H3).
  destruct (dataset_new_within cls data) as (o' & Hnew' & Hrest); auto.
  rewrite Hnew in Hnew'. by injection Hnew' as <-.
Qed.

(** Two instances of a class with the same fields are the same. *)
Lemma object_eq cls (o1 o2 : object) :
  obj_class o1 = name cls → obj_class o2 = name cls →
  (∀ n wp, (n, wp) ∈ working_partitions cls → obj_dict o1 !! n = obj_dict o2 !! n) →
  (∀ f, f ∈ fields cls → f_name f ∉ (working_partitions cls).*1 →
     obj_dict o1 !! f_name f = obj_dict o2 !! f_name f) →
  (∀ k, k ∉ f_name <$> fields cls → obj_dict o1 !! k = None) →
  (∀ k, k ∉ f_name <$> fields cls → obj_dict o2 !! k = None) →
  o1 = o2.
Proof.
  destruct o1 as [c1 d1], o2 as [c2 d2]. simpl.
  intros -> -> Hparts Hother Hnone1 Hnone2. f_equal.
  apply map_eq. intros k.
  destruct (decide (k ∈ f_name <$> fields cls)) as [Hk|Hk]; last first.
  { by rewrite Hnone1, Hnone2. }
  apply list_elem_of_fmap in Hk as (f & -> & Hf).
  destruct (decide (f_name f ∈ (working_partitions cls).*1)) as [Hp|Hp].
  - apply list_elem_of_fmap in Hp as ([n wp] & Hn & Hmem). simpl in Hn.
    rewrite Hn. by eapply Hparts.
  - by apply Hother.
Qed.

(** X1.  Validated settings hold working partitions only: every value
    of every partition field (years, tables, states) of a constructed
    dataset settings object is one of the class's working partition. *)
Theorem partitions_within_working cls data o :
  new (model cls) data = Ok o →
  ∀ n wp, (n, wp) ∈ working_partitions cls →
    ∃ s, obj_dict o !! n = Some s ∧ within s wp.
Proof.
  intros Hnew n wp Hmem.
  destruct (dataset_new_Ok cls data o Hnew) as [_ Hparts].
  destruct (Hparts n wp Hmem) as (Hwithin & s & Hs & Ho).
  exists s. split; [done|]. by eapply sorted_set_within.
Qed.

Lemma run_root_validators_errors vs values errors :
  ∃ more, (run_root_validators vs values errors).2 = errors ++ more.
Proof.
  revert values errors. induction vs as [|v vs IH]; intros values errors; simpl.
  - exists []. by rewrite app_nil_r.
  - destruct (v values) as [values'|e]; [apply IH|].
    destruct (IH values (errors ++ [("__root__", e)])) as [more ->].
    eexists. by rewrite <-app_assoc.
Qed.

(** An error of the field loop or of the check for extra arguments makes
    any constructor raise, with that error among the errors. *)
Lemma new_with_error c data loc e :
  (loc, e) ∈ mjoin ((λ f, field_errors f data) <$> cls_fields c)
             ++ extra_errors (cls_config c) (cls_fields c) data →
  ∃ errors, new c data = Raise (ValidationError errors) ∧ (loc, e) ∈ errors.
Proof.
  intros Hin. unfold new, validate_model.
  pose proof (validate_fields_errors (cls_fields c) data ∅ []) as Herr.
  destruct (validate_fields (cls_fields c) data ∅ []) as [values errors].
  simpl in Herr. subst errors.
  destruct (run_root_validators_errors (cls_post_root_validators c) values
              (mjoin ((λ f, field_errors f data) <$> cls_fields c)
               ++ extra_errors (cls_config c) (cls_fields c) data)) as [more Hmore].
  destruct (run_root_validators _ _ _) as [values' errors]. simpl in Hmore. subst errors.
  destruct (_ ++ more) as [|err errors] eqn:E.
  - apply app_eq_nil in E as [E _]. rewrite E in Hin. by apply elem_of_nil in Hin.
  - eexists. split; [done|]. rewrite <-E. apply elem_of_app. by left.
Qed.

(** X2.  Extra fields are forbidden: for each of the five dataset
    settings classes and for GlueSettings, a keyword argument whose name
    is not a field of the class makes validation raise, with an error
    located at that name. *)
Theorem extra_argument_forbidden c data k :
  c = GlueSettings ∨ (∃ cls, c = model cls) →
  is_Some (data !! k) → k ∉ f_name <$> cls_fields c →
  ∃ errors, new c data = Raise (ValidationError errors)
            ∧ (k, ExtraForbidden) ∈ errors.
Proof.
  intros Hc [v Hk] Hout. apply new_with_error. apply elem_of_app. right.
  assert (extra_forbid (cls_config c) = true) as Hcfg.
  { by destruct Hc as [-> | [cls ->]]. }
  unfold extra_errors. rewrite Hcfg.
  apply (list_elem_of_fmap_2 (λ k, (k, ExtraForbidden))).
  unfold sorted_strs. rewrite merge_sort_Permutation.
  apply list_elem_of_filter. split; [done|].
  apply list_elem_of_fmap. exists (k, v). split; [done|].
  by apply elem_of_map_to_list.
Qed.

(** *** [validate_partitions] on its own result *)

Lemma set_nil_inv {X} `{EqDecision X} (l : list X) : set_ l = [] → l = [].
Proof.
  intros Hnil. destruct l as [|x l]; [done|].
  assert (x ∈ set_ (x :: l)) as Hin by (apply elem_of_remove_dups; left).
  rewrite Hnil in Hin. by apply elem_of_nil in Hin.
Qed.

Lemma sorted_set_passes v wp s :
  passes v wp → value_sorted_set v = Ok s →
  passes s wp ∧ value_sorted_set s = Ok s.
Proof.
  intros (bad & Hbad & Hlen) Hs.
  destruct v as [| |l| l|]; try done; injection Hs as <-;
    (split; [|simpl; do 2 f_equal; apply sorted_set_idemp; apply _]);
    destruct wp as [| |k|k|]; try done; simpl in *; injection Hbad as <-;
    apply nil_length_inv in Hlen; eexists; (split; [done|]); simpl.
  - apply set_minus_nil in Hlen. apply length_zero_iff_nil, set_minus_nil.
    intros x. unfold sorted_ints. rewrite elem_of_sorted_set by apply _. apply Hlen.
  - by apply set_nil_inv in Hlen as ->.
  - by apply set_nil_inv in Hlen as ->.
  - apply set_minus_nil in Hlen. apply length_zero_iff_nil, set_minus_nil.
    intros x. unfold sorted_strs. rewrite elem_of_sorted_set by apply _. apply Hlen.
Qed.

(** X3.  validate_partitions is idempotent: run on the values it
    returned, it returns them unchanged. *)
Theorem validate_partitions_idempotent cls values values' :
  validate_partitions cls values = Ok values' →
  validate_partitions cls values' = Ok values'.
Proof.
  unfold Settings.validate_partitions. intros Hrun.
  pose proof (NoDup_partition_names cls) as Hnd.
  destruct (validate_partitions_items_Ok _ _ _ _ Hnd Hrun) as [Hin Hout].
  assert (∀ n wp, (n, wp) ∈ working_partitions cls →
            ∃ s, values' !! n = Some s ∧ passes s wp ∧ value_sorted_set s = Ok s)
    as Hagain.
  { intros n wp Hmem. destruct (Hin n wp Hmem) as (q & s & _ & Hpass & Hs & Hv').
    exists s. split; [done|]. by eapply sorted_set_passes. }
  destruct (validate_partitions_items_passes cls (working_partitions cls) values')
    as [values'' Hrun']; [done| |].
  { intros n wp Hmem. destruct (Hagain n wp Hmem) as (s & ? & ? & _). by exists s. }
  rewrite Hrun'. f_equal.
  destruct (validate_partitions_items_Ok _ _ _ _ Hnd Hrun') as [Hin' Hout'].
  apply map_eq. intros k.
  destruct (decide (k ∈ (working_partitions cls).*1)) as [Hk|Hk]; [|by apply Hout'].
  apply list_elem_of_fmap in Hk as ([n wp] & -> & Hmem). simpl.
  destruct (Hin' n wp Hmem) as (q & s' & Hq & _ & Hs' & ->).
  destruct (Hagain n wp Hmem) as (s & Hv' & _ & Hs).
  rewrite Hv' in Hq. injection Hq as <-. rewrite Hv'. congruence.
Qed.

(** *** Order and repetitions of a request *)

Lemma partition_unique cls n wp wp' :
  (n, wp) ∈ working_partitions cls → (n, wp') ∈ working_partitions cls →
  wp = wp'.
Proof.
  intros H1 H2.
  destruct cls; simpl in H1, H2;
    repeat (apply elem_of_cons in H1 as [[= -> ->]|H1]);
    try (by apply elem_of_nil in H1);
    repeat (apply elem_of_cons in H2 as [[= <-]|H2]);
    try (by apply elem_of_nil in H2); done.
Qed.

(** The fields annotated with a list are the partitions. *)
Lemma list_field_partition cls f :
  f ∈ fields cls → f_type f = TListInt ∨ f_type f = TListStr →
  f_name f ∈ (working_partitions cls).*1.
Proof.
  intros Hf Ht.
  destruct cls; simpl in Hf;
    repeat (apply elem_of_cons in Hf as [->|Hf]);
    try (by apply elem_of_nil in Hf); simpl in *;
    try (by destruct Ht); apply list_elem_of_In; simpl; tauto.
Qed.

Lemma requested_insert_ne cls data n v n' wp :
  n ≠ n' → requested cls (<[n := v]> data) n' wp = requested cls data n' wp.
Proof. intros Hne. unfold requested. by rewrite lookup_insert_ne. Qed.

Lemma field_value_insert_ne f data n v :
  n ≠ f_name f → field_value f (<[n := v]> data) = field_value f data.
Proof. intros Hne. unfold field_value. by rewrite lookup_insert_ne. Qed.

Lemma same_values_within v1 v2 wp :
  same_values v1 v2 → within v1 wp → within v2 wp.
Proof.
  destruct v1, v2, wp; simpl; try done; intros Hsame Hsub x Hx;
    by apply Hsub, Hsame.
Qed.

Lemma same_values_sorted_set v1 v2 :
  same_values v1 v2 → value_sorted_set v1 = value_sorted_set v2.
Proof.
  destruct v1, v2; simpl; try done; intros Hsame; do 2 f_equal.
  - unfold sorted_ints. by apply sorted_set_ext; try apply _.
  - unfold sorted_strs. by apply sorted_set_ext; try apply _.
Qed.

(** X4.  The result of a successful validation depends on the values of
    a requested list only, not on their order or repetitions: replacing
    an argument by a list with the same values gives the same object.
    The one-element list of the keyword all is set apart: it stands for
    every state, repeated it does not. *)
Theorem request_order_irrelevant cls data n v1 v2 o :
  same_values v1 v2 → v1 ≠ VStrs ["all"] → v2 ≠ VStrs ["all"] →
  new (model cls) (<[n := v1]> data) = Ok o →
  new (model cls) (<[n := v2]> data) = Ok o.
Proof.
  intros Hsame Hall1 Hall2 Hnew.
  destruct (dataset_new_Ok_conditions _ _ _ Hnew) as (H1 & H2 & H3).
  destruct (dataset_new_Ok_fields _ _ _ Hnew) as (Hcls & Hparts & Hother & Hnone).
  assert (<[n := v1]> data !! n = Some v1) as Hv1 by apply lookup_insert_eq.
  assert (<[n := v2]> data !! n = Some v2) as Hv2 by apply lookup_insert_eq.
  (* [n] is a partition *)
  assert (n ∈ (working_partitions cls).*1) as Hn.
  { assert (n ∈ f_name <$> fields cls) as Hfield by (apply H1; by eexists).
    apply list_elem_of_fmap in Hfield as (f & -> & Hf).
    apply list_field_partition; [done|].
    specialize (H2 f v1 Hf Hv1). unfold validate_field in H2.
    destruct (fits (f_type f) v1) eqn:Hfit; [|done].
    destruct (f_type f), v1, v2; try done; auto. }
  apply list_elem_of_fmap in Hn as ([n0 wp] & Hn0 & Hmem). simpl in Hn0. subst n0.
  assert (∀ n' wp', (n', wp') ∈ working_partitions cls →
            within (requested cls (<[n := v2]> data) n' wp') wp'
            ∧ value_sorted_set (requested cls (<[n := v2]> data) n' wp')
              = value_sorted_set (requested cls (<[n := v1]> data) n' wp'))
    as Hreq.
  { intros n' wp' Hmem'. destruct (decide (n = n')) as [<-|Hne].
    - assert (wp' = wp) as -> by by eapply partition_unique.
      rewrite (requested_given _ _ _ _ _ Hv2) by done.
      specialize (H3 n wp Hmem).
      rewrite (requested_given _ _ _ _ _ Hv1) in * by done.
      split; [by eapply same_values_within|].
      symmetry. by apply same_values_sorted_set.
    - rewrite !requested_insert_ne by done.
      split; [|done]. specialize (H3 n' wp' Hmem').
      by rewrite requested_insert_ne in H3. }
  destruct (dataset_new_within cls (<[n := v2]> data))
    as (o2 & Hnew2 & Hcls2 & Hparts2 & Hother2 & Hnone2).
  - intros k [v Hk]. apply H1.
    destruct (decide (n = k)) as [<-|Hne]; [by eexists|].
    rewrite lookup_insert_ne in Hk by done. rewrite lookup_insert_ne by done.
    by eexists.
  - intros f v Hf Hp Hv. apply H2; [done|].
    assert (n ≠ f_name f) as Hne.
    { intros ->. apply Hp. by apply (list_elem_of_fmap_2 fst _ (f_name f, wp)). }
    rewrite lookup_insert_ne in Hv by done. by rewrite lookup_insert_ne.
  - intros n' wp' Hmem'. by apply Hreq.
  - rewrite Hnew2. f_equal. apply (object_eq cls); try done.
    + intros n' wp' Hmem'.
      destruct (Hparts2 n' wp' Hmem') as (s2 & Hs2 & ->).
      destruct (Hparts n' wp' Hmem') as (s & Hs & ->).
      destruct (Hreq n' wp' Hmem') as [_ Heq]. congruence.
    + intros f Hf Hp. rewrite Hother, Hother2 by done.
      assert (n ≠ f_name f) as Hne.
      { intros ->. apply Hp. by apply (list_elem_of_fmap_2 fst _ (f_name f, wp)). }
      by rewrite !field_value_insert_ne.
Qed.

(** *** The reference year *)

Lemma max_Ok l m :
  max_ l = Ok m → m ∈ l ∧ ∀ y, y ∈ l → (y ≤ m)%Z.
Proof.
  destruct l as [|x l]; [done|]. simpl. intros [= <-].
  induction l as [|z l [IHin IHle]]; simpl.
  - split; [left|]. intros y ->%list_elem_of_singleton. lia.
  - split.
    + destruct (Z.max_spec z (foldr Z.max x l)) as [[_ ->]|[_ ->]].
      * apply elem_of_cons in IHin as [->|?]; [left|right; by right].
      * right. left.
    + intros y Hy.
      assert (y = z ∨ y ∈ x :: l) as [->|Hy'].
      { apply elem_of_cons in Hy as [->|Hy]; [right; left|].
        apply elem_of_cons in Hy as [->|Hy]; [by left|right; by right]. }
      * lia.
      * specialize (IHle y Hy'). lia.
Qed.

Lemma refyear_default_working :
  WORKING_PARTITIONS_years "ferc1" ≠ [] →
  refyear_default WORKING_PARTITIONS_years ∈ WORKING_PARTITIONS_years "ferc1"
  ∧ ∀ y, y ∈ WORKING_PARTITIONS_years "ferc1" →
         (y ≤ refyear_default WORKING_PARTITIONS_years)%Z.
Proof.
  intros Hne. unfold refyear_default.
  destruct (max_ (WORKING_PARTITIONS_years "ferc1")) as [m|e] eqn:Hmax.
  - by apply max_Ok.
  - by destruct (WORKING_PARTITIONS_years "ferc1").
Qed.

(** X5.  Without a refyear argument, Ferc1ToSqliteSettings takes the
    most recent working year of FERC1 as its reference year: the field
    is a working year and no working year is later. *)
Theorem default_refyear_most_recent data :
  WORKING_PARTITIONS_years "ferc1" ≠ [] →
  data !! "refyear" = None →
  ∀ o, new (model Ferc1ToSqliteSettings) data = Ok o →
    ∃ m, obj_dict o !! "refyear" = Some (VInt m)
         ∧ m ∈ WORKING_PARTITIONS_years "ferc1"
         ∧ ∀ y, y ∈ WORKING_PARTITIONS_years "ferc1" → (y ≤ m)%Z.
Proof.
  intros Hne Habsent o Hnew.
  destruct (dataset_new_Ok_fields _ _ _ Hnew) as (_ & _ & Hother & _).
  specialize (Hother (Field "refyear" TInt (VInt (refyear_default WORKING_PARTITIONS_years))
                        [check_reference_year WORKING_PARTITIONS_years])).
  simpl in Hother. unfold field_value in Hother. simpl in Hother.
  rewrite Habsent in Hother.
  exists (refyear_default WORKING_PARTITIONS_years). split.
  - apply Hother; [right; right; left|].
    intros Hk. repeat (apply elem_of_cons in Hk as [?|Hk]); try done.
    by apply elem_of_nil in Hk.
  - by apply refyear_default_working.
Qed.

(** X6.  A reference year that is given is kept exactly when it is a
    working year of FERC1: every constructed Ferc1ToSqliteSettings has
    a working year as its refyear, the one given; and a refyear that is
    no working year makes validation raise with the error of
    check_reference_year, which shows the year and the available
    years. *)
Theorem reference_year_checked data y :
  data !! "refyear" = Some (VInt y) →
  (∀ o, new (model Ferc1ToSqliteSettings) data = Ok o →
        obj_dict o !! "refyear" = Some (VInt y)
        ∧ y ∈ WORKING_PARTITIONS_years "ferc1")
  ∧ (y ∉ WORKING_PARTITIONS_years "ferc1" →
     ∃ errors,
       new (model Ferc1ToSqliteSettings) data = Raise (ValidationError errors)
       ∧ ("refyear", ReferenceYear y (VInts (WORKING_PARTITIONS_years "ferc1")))
         ∈ errors).
Proof.
  intros Hy.
  set (f := Field "refyear" TInt (VInt (refyear_default WORKING_PARTITIONS_years))
              [check_reference_year WORKING_PARTITIONS_years]).
  assert (f ∈ fields Ferc1ToSqliteSettings) as Hf by (simpl; right; right; left).
  assert (validate_field f (VInt y)
          = if in_ y (WORKING_PARTITIONS_years "ferc1") then Ok (VInt y)
            else Raise (ReferenceYear y (VInts (WORKING_PARTITIONS_years "ferc1"))))
    as Hvalidate.
  { unfold validate_field. simpl. by destruct (in_ _ _). }
  split.
  - intros o Hnew.
    destruct (dataset_new_Ok_conditions _ _ _ Hnew) as (_ & H2 & _).
    destruct (dataset_new_Ok_fields _ _ _ Hnew) as (_ & _ & Hother & _).
    specialize (H2 f (VInt y) Hf Hy). rewrite Hvalidate in H2.
    specialize (Hother f Hf). simpl in Hother.
    unfold field_value in Hother. simpl in Hother. rewrite Hy in Hother.
    fold f in Hother. rewrite Hvalidate in Hother.
    unfold in_ in *. case_bool_decide as Hin; [|done].
    split; [|done]. apply Hother.
    intros Hk. repeat (apply elem_of_cons in Hk as [?|Hk]); try done.
    by apply elem_of_nil in Hk.
  - intros Hout.
    apply (new_field_error Ferc1ToSqliteSettings data f (VInt y)); [done..|].
    rewrite Hvalidate. unfold in_. by rewrite bool_decide_eq_false_2.
Qed.

(** *** Validating the fields of an instance again *)

(** The validators of the fields that are no partitions return their
    argument when they return. *)
Lemma other_field_returns_input cls f v0 v :
  f ∈ fields cls → f_name f ∉ (working_partitions cls).*1 →
  validate_field f v0 = Ok v → v = v0.
Proof.
  intros Hf Hp.
  destruct cls; simpl in Hf;
    repeat (apply elem_of_cons in Hf as [->|Hf]);
    try (by apply elem_of_nil in Hf); simpl in Hp;
    try (exfalso; apply Hp; apply list_elem_of_In; simpl; tauto);
    unfold validate_field; simpl; destruct v0; simpl; try done;
    try (by intros [= <-]).
  - unfold Settings.check_860m_date. rewrite eia860m_year. simpl.
    destruct b; [|by intros [= <-]].
    destruct (max_ _); simpl; [|done].
    case_bool_decide; [done|]. by intros [= <-].
  - destruct (in_ _ _); [|done]. by intros [= <-].
Qed.

(** Their defaults pass them. *)
Lemma other_field_default cls f :
  f ∈ fields cls → f_name f ∉ (working_partitions cls).*1 →
  (cls = Ferc1ToSqliteSettings → WORKING_PARTITIONS_years "ferc1" ≠ []) →
  validate_field f (f_default f) = Ok (f_default f).
Proof.
  intros Hf Hp Hne.
  destruct cls; simpl in Hf;
    repeat (apply elem_of_cons in Hf as [->|Hf]);
    try (by apply elem_of_nil in Hf); simpl in Hp;
    try (exfalso; apply Hp; apply list_elem_of_In; simpl; tauto);
    try done.
  unfold validate_field. simpl. unfold in_.
  rewrite bool_decide_eq_true_2; [done|].
  by apply refyear_default_working, Hne.
Qed.

Lemma other_field_revalidates cls f data v :
  f ∈ fields cls → f_name f ∉ (working_partitions cls).*1 →
  (cls = Ferc1ToSqliteSettings → WORKING_PARTITIONS_years "ferc1" ≠ []) →
  field_value f data = Some v → validate_field f v = Ok v.
Proof.
  intros Hf Hp Hne. unfold field_value.
  destruct (data !! f_name f) as [v0|].
  - destruct (validate_field f v0) as [v'|] eqn:Hv0; [|done]. intros [= <-].
    assert (v' = v0) as -> by (by eapply other_field_returns_input). done.
  - intros [= <-]. by apply (other_field_default cls).
Qed.

Lemma within_all_state :
  within (VStrs ["all"]) (VStrs (EpaCems_states)) → "all" ∈ EPACEMS_STATES.
Proof.
  simpl. intros Hsub.
  assert ("all" ∈ EpaCems_states) as Hin by (apply Hsub; left).
  unfold Settings.EpaCems_states, sorted_strs in Hin.
  by rewrite elem_of_sorted_set in Hin by apply _.
Qed.

(** X7.  Validation is a projection: the fields of a constructed dataset
    settings object, given as arguments to its class again, validate to
    the same object.  (For Ferc1ToSqliteSettings this needs a working
    year of FERC1, without which the class has no default refyear; for
    EpaCemsSettings the keyword all must not itself be a state.) *)
Theorem revalidate_own_fields cls data o :
  (cls = Ferc1ToSqliteSettings → WORKING_PARTITIONS_years "ferc1" ≠ []) →
  (cls = EpaCemsSettings → "all" ∉ EPACEMS_STATES) →
  new (model cls) data = Ok o →
  new (model cls) (obj_dict o) = Ok o.
Proof.
  intros Hne Hall Hnew.
  destruct (dataset_new_Ok_conditions _ _ _ Hnew) as (H1 & H2 & H3).
  destruct (dataset_new_Ok_fields _ _ _ Hnew) as (Hcls & Hparts & Hother & Hnone).
  (* what the instance holds under a partition *)
  assert (∀ n wp, (n, wp) ∈ working_partitions cls →
            ∃ s, obj_dict o !! n = Some s ∧ within s wp
                 ∧ value_sorted_set s = Ok s
                 ∧ requested cls (obj_dict o) n wp = s) as Hheld.
  { intros n wp Hmem. destruct (Hparts n wp Hmem) as (s & Hs & Ho).
    exists s. split; [done|].
    assert (within s wp) as Hwithin by (eapply sorted_set_within; eauto).
    split; [done|]. split.
    - by eapply sorted_set_passes; [apply within_passes, H3|].
    - unfold requested. rewrite Ho. case_bool_decide as Hcase; [|done].
      destruct Hcase as (-> & -> & ->). exfalso. apply Hall; [done|].
      simpl in Hmem.
      apply elem_of_cons in Hmem as [[= ->]|Hmem]; [by apply within_all_state|].
      apply elem_of_cons in Hmem as [[=]|Hmem]. by apply elem_of_nil in Hmem. }
  destruct (dataset_new_within cls (obj_dict o))
    as (o2 & Hnew2 & Hcls2 & Hparts2 & Hother2 & Hnone2).
  - intros k Hk. destruct (decide (k ∈ f_name <$> fields cls)) as [|Hout]; [done|].
    rewrite Hnone in Hk by done. by destruct Hk.
  - intros f v Hf Hp Hv. rewrite Hother in Hv by done.
    by rewrite (other_field_revalidates cls f data v).
  - intros n wp Hmem. destruct (Hheld n wp Hmem) as (s & _ & Hwithin & _ & ->). done.
  - rewrite Hnew2. f_equal. apply (object_eq cls); try done.
    + intros n wp Hmem.
      destruct (Hparts2 n wp Hmem) as (s2 & Hs2 & ->).
      destruct (Hheld n wp Hmem) as (s & -> & _ & Hs & Hreq).
      rewrite Hreq in Hs2. congruence.
    + intros f Hf Hp. rewrite Hother2 by done.
      destruct (obj_dict o !! f_name f) as [v|] eqn:Hv.
      * unfold field_value. rewrite Hv. rewrite Hother in Hv by done.
        by rewrite (other_field_revalidates cls f data v).
      * rewrite Hother in Hv by done. unfold field_value in Hv.
        destruct (data !! f_name f) as [v0|] eqn:Hv0; [|done].
        specialize (H2 f v0 Hf Hv0). by destruct (validate_field f v0).
Qed.

(** *** EiaSettings and DatasetsSettings as a whole *)

(** X8.  EIA860 and EIA923 settings come in pairs: a validated
    EiaSettings has eia860 settings exactly when it has eia923
    settings. *)
Theorem eia_settings_paired data r :
  EiaSettings_new data = Ok r →
  (is_Some (eia860 r) ↔ is_Some (eia923 r)).
Proof.
  unfold Settings.EiaSettings_new.
  destruct (validate_object_field "eia860" _ _ _) as [v860 errors1].
  destruct (validate_object_field "eia923" _ _ _) as [v923 errors2].
  unfold check_eia_dependencies.
  destruct v860 as [o860|], v923 as [o923|]; simpl.
  - destruct errors2; [|done]. intros [= <-]. simpl. split; by eexists.
  - destruct (getattr o860 "years") as [years|]; simpl.
    + destruct (new (model Eia923Settings) _) as [o923|]; simpl.
      * destruct errors2; [|done]. intros [= <-]. simpl. split; by eexists.
      * by destruct errors2.
    + by destruct errors2.
  - destruct (getattr o923 "years") as [years|]; simpl.
    + destruct (new (model Eia860Settings) _) as [o860|]; simpl.
      * destruct errors2; [|done]. intros [= <-]. simpl. split; by eexists.
      * by destruct errors2.
    + by destruct errors2.
  - destruct errors2; [|done]. intros [= <-]. simpl.
    split; intros [? ?]; done.
Qed.

(** X9.  When both eia860 and eia923 settings are given and valid, they
    are kept as they are: the years of the two are not compared, and
    the tables of eia923 need not include boiler_fuel_eia923 and
    generation_eia923. *)
Theorem eia_settings_both_kept kw860 a860 o860 kw923 a923 o923 :
  new (model Eia860Settings) kw860 = Ok o860 →
  a860 = ArgDict kw860 ∨ a860 = ArgModel o860 →
  new (model Eia923Settings) kw923 = Ok o923 →
  a923 = ArgDict kw923 ∨ a923 = ArgModel o923 →
  EiaSettings_new {| data_eia860 := Some a860; data_eia923 := Some a923 |}
  = Ok {| eia860 := Some o860; eia923 := Some o923 |}.
Proof.
  intros H860 Ha860 H923 Ha923.
  unfold Settings.EiaSettings_new. cbn [data_eia860 data_eia923].
  rewrite (validate_present _ _ kw860 a860 o860) by done.
  by rewrite (validate_present _ _ kw923 a923 o923) by done.
Qed.

(** X10.  Glue settings follow FERC1 and EIA: whenever a validated
    DatasetsSettings has both ferc1 and eia settings, its glue settings
    are the default GlueSettings (eia and ferc1 both True), whatever
    glue argument was given. *)
Theorem glue_added_with_ferc1_and_eia data r :
  DatasetsSettings_new data = Ok r →
  is_Some (ferc1 r) → is_Some (eia r) →
  glue r = Some (Object "GlueSettings"
                   {[ "eia" := VBool true; "ferc1" := VBool true ]}).
Proof.
  unfold Settings.DatasetsSettings_new.
  destruct (default_load_all data) as [data'|]; [|done].
  destruct (validate_object_field "ferc1" _ _ _) as [vferc1 errors1].
  destruct (validate_model_field "eia" _ _ _ _) as [veia errors2].
  destruct (validate_object_field "glue" _ _ _) as [vglue errors3].
  destruct (validate_object_field "epacems" _ _ _) as [vepacems errors4].
  unfold add_glue_settings. cbn [ferc1 eia glue epacems].
  destruct vferc1 as [f|], veia as [e|]; cbn [truthy andb];
    rewrite ?new_GlueSettings_default; simpl;
    (destruct errors4; [|done]); intros [= <-]; simpl;
    try done; intros [? ?] [? ?]; done.
Qed.

(** X11.  Defaults are loaded only when nothing is specified: as soon as
    one dataset is specified, a dataset whose argument is absent or None
    stays None in the validated DatasetsSettings (ferc1, eia and
    epacems; glue is set by add_glue_settings). *)
Theorem unspecified_dataset_stays_none data r :
  any_values data = true →
  DatasetsSettings_new data = Ok r →
  (data_ferc1 data = None ∨ data_ferc1 data = Some ArgNone → ferc1 r = None)
  ∧ (data_eia data = None ∨ data_eia data = Some ArgNone → eia r = None)
  ∧ (data_epacems data = None ∨ data_epacems data = Some ArgNone →
     epacems r = None).
Proof.
  intros Hany. unfold Settings.DatasetsSettings_new, Settings.default_load_all.
  rewrite Hany. cbn [negb].
  destruct (validate_object_field "ferc1" _ _ _) as [vferc1 errors1] eqn:H1.
  destruct (validate_model_field "eia" _ _ _ _) as [veia errors2] eqn:H2.
  destruct (validate_object_field "glue" _ _ _) as [vglue errors3] eqn:H3.
  destruct (validate_object_field "epacems" _ _ _) as [vepacems errors4] eqn:H4.
  intros Hr.
  assert (ferc1 r = vferc1 ∧ eia r = veia ∧ epacems r = vepacems)
    as (-> & -> & ->).
  { unfold add_glue_settings in Hr. cbn [ferc1 eia glue epacems] in Hr.
    destruct (truthy vferc1 && truthy veia);
      rewrite ?new_GlueSettings_default in Hr; simpl in Hr;
      (destruct errors4; [|done]); by injection Hr as <-. }
  split; [|split].
  - intros Hnone. rewrite validate_none in H1 by done. by injection H1 as <-.
  - intros [Hnone|Hnone]; rewrite Hnone in H2; by injection H2 as <-.
  - intros Hnone. rewrite validate_none in H4 by done. by injection H4 as <-.
Qed.

End facts.
End SettingsFacts.

(** ** Properties of the migration *)

Module MigrationFacts.
Import PyFacts Migration.

(** Adding the two columns to a table and dropping them again gives the
    table back. *)
Lemma add_then_drop t t' :
  apply_operations [add_column ferc_account; add_column row_type_xbrl] t = Some t' →
  t' = t ++ [ferc_account; row_type_xbrl]
  ∧ apply_operations [drop_column "row_type_xbrl"; drop_column "ferc_account"] t'
    = Some t.
Proof.
  simpl. case_bool_decide as Hfa; [done|].
  case_bool_decide as Hrt; [done|]. intros [= <-].
  rewrite <-app_assoc. split; [done|].
  rewrite bool_decide_eq_true_2; last first.
  { unfold column_names. rewrite fmap_app. apply elem_of_app. right. right. left. }
  unfold column_names in *. rewrite fmap_app in Hrt.
  rewrite not_elem_of_app in Hrt. destruct Hrt as [Hrt _].
  assert (∀ c, c ∈ t → col_name c ≠ "row_type_xbrl") as Hrt'.
  { intros c Hc Heq. apply Hrt. rewrite <-Heq. by apply list_elem_of_fmap_2. }
  assert (∀ c, c ∈ t → col_name c ≠ "ferc_account") as Hfa'.
  { intros c Hc Heq. apply Hfa. rewrite <-Heq. by apply list_elem_of_fmap_2. }
  assert (filter (λ c, col_name c ≠ "row_type_xbrl")
            (t ++ [ferc_account] ++ [row_type_xbrl]) = t ++ [ferc_account]) as ->.
  { rewrite filter_app, (filter_all _ t) by done. by f_equal. }
  rewrite bool_decide_eq_true_2; last first.
  { rewrite fmap_app. apply elem_of_app. right. left. }
  assert (filter (λ c, col_name c ≠ "ferc_account") (t ++ [ferc_account]) = t) as ->.
  { rewrite filter_app, (filter_all _ t) by done.
    rewrite <-(app_nil_r t) at 2. by f_equal. }
  done.
Qed.

Lemma batch_alter_table_Some name ops db db' :
  batch_alter_table name ops db = Some db' →
  ∃ t t', db !! name = Some t ∧ apply_operations ops t = Some t'
          ∧ db' = <[name := t']> db.
Proof.
  unfold batch_alter_table. destruct (db !! name) as [t|]; [|done].
  destruct (apply_operations ops t) as [t'|] eqn:Hops; [|done].
  intros [= <-]. by exists t, t'.
Qed.

(** C2.  When upgrade succeeds, it has appended the columns ferc_account
    and row_type_xbrl to denorm_electric_operating_revenues_ferc1 and to
    electric_operating_revenues_ferc1, and downgrade on the result
    succeeds and gives the database back, so the columns of the two
    tables (and of every other table) are unchanged; the (table, column)
    pairs upgrade adds are exactly the pairs downgrade drops. *)
Theorem upgrade_then_downgrade db db' :
  upgrade db = Some db' →
  downgrade db' = Some db
  ∧ (∀ t, t = "denorm_electric_operating_revenues_ferc1"
          ∨ t = "electric_operating_revenues_ferc1" →
       ∃ cols, db !! t = Some cols
               ∧ db' !! t = Some (cols ++ [ferc_account; row_type_xbrl]))
  ∧ (∀ t, column_names <$> (db !! t)
          = (db'' ← downgrade db'; column_names <$> (db'' !! t)))
  ∧ added upgrade_blocks
    = [ ("denorm_electric_operating_revenues_ferc1", "ferc_account");
        ("denorm_electric_operating_revenues_ferc1", "row_type_xbrl");
        ("electric_operating_revenues_ferc1", "ferc_account");
        ("electric_operating_revenues_ferc1", "row_type_xbrl") ]
  ∧ added upgrade_blocks ≡ₚ dropped downgrade_blocks
  ∧ dropped upgrade_blocks = [] ∧ added downgrade_blocks = [].
Proof.
  intros Hup.
  assert (downgrade db' = Some db
          ∧ ∀ t, t = "denorm_electric_operating_revenues_ferc1"
                 ∨ t = "electric_operating_revenues_ferc1" →
              ∃ cols, db !! t = Some cols
                      ∧ db' !! t = Some (cols ++ [ferc_account; row_type_xbrl]))
    as [Hdown Hcols].
  { unfold upgrade, upgrade_blocks in Hup. simpl in Hup.
    destruct (batch_alter_table "denorm_electric_operating_revenues_ferc1" _ db)
      as [db1|] eqn:H1; [|done].
    destruct (batch_alter_table "electric_operating_revenues_ferc1" _ db1)
      as [db2|] eqn:H2; [|done].
    injection Hup as ->.
    apply batch_alter_table_Some in H1 as (t1 & t1' & Ht1 & Hops1 & ->).
    apply batch_alter_table_Some in H2 as (t2 & t2' & Ht2 & Hops2 & ->).
    rewrite lookup_insert_ne in Ht2 by done.
    apply add_then_drop in Hops1 as [-> Hback1].
    apply add_then_drop in Hops2 as [-> Hback2].
    split.
    - unfold downgrade, downgrade_blocks. cbn [run].
      unfold batch_alter_table at 1. rewrite lookup_insert_eq, Hback2.
      unfold batch_alter_table. rewrite lookup_insert_ne by done.
      rewrite lookup_insert_ne by done. rewrite lookup_insert_eq, Hback1.
      f_equal. rewrite insert_insert_eq.
      rewrite insert_insert_ne by done. rewrite insert_insert_eq.
      rewrite (insert_id db "denorm_electric_operating_revenues_ferc1") by done.
      by rewrite insert_id.
    - intros t [-> | ->].
      + exists t1. split; [done|].
        rewrite lookup_insert_ne by done. by rewrite lookup_insert_eq.
      + exists t2. split; [done|]. by rewrite lookup_insert_eq. }
  split; [done|]. split; [done|]. split.
  { intros t. by rewrite Hdown. }
  split; [done|]. split; [|done].
  by apply (bool_decide_unpack _).
Qed.

(** *** When the migration functions succeed *)

Lemma add_both_Some t t' :
  apply_operations [add_column ferc_account; add_column row_type_xbrl] t = Some t'
  ↔ ("ferc_account" ∉ column_names t) ∧ ("row_type_xbrl" ∉ column_names t)
    ∧ t' = t ++ [ferc_account; row_type_xbrl].
Proof.
  simpl. split.
  - case_bool_decide as Hfa; [done|]. case_bool_decide as Hrt; [done|].
    intros [= <-]. rewrite <-app_assoc. split; [done|]. split; [|done].
    intros Hin. apply Hrt. unfold column_names. rewrite fmap_app.
    apply elem_of_app. by left.
  - intros (Hfa & Hrt & ->).
    rewrite bool_decide_eq_false_2 by done.
    rewrite bool_decide_eq_false_2; [by rewrite <-app_assoc|].
    unfold column_names. rewrite fmap_app. intros [Hin|Hin]%elem_of_app; [done|].
    by apply list_elem_of_singleton in Hin.
Qed.

Lemma elem_of_names_filter (t : list column) n m :
  n ∈ column_names (filter (λ c, col_name c ≠ m) t)
  ↔ n ∈ column_names t ∧ n ≠ m.
Proof.
  unfold column_names. rewrite !list_elem_of_fmap. split.
  - intros (c & -> & [Hc Hin]%list_elem_of_filter). split; [by exists c|done].
  - intros [(c & -> & Hin) Hne]. exists c. split; [done|].
    by apply list_elem_of_filter.
Qed.

Lemma drop_both_Some t t' :
  apply_operations [drop_column "row_type_xbrl"; drop_column "ferc_account"] t
  = Some t'
  ↔ "ferc_account" ∈ column_names t ∧ "row_type_xbrl" ∈ column_names t
    ∧ t' = filter (λ c, col_name c ≠ "ferc_account")
             (filter (λ c, col_name c ≠ "row_type_xbrl") t).
Proof.
  simpl. split.
  - case_bool_decide as Hrt; [|done]. case_bool_decide as Hfa; [|done].
    intros [= <-]. apply elem_of_names_filter in Hfa as [Hfa _]. done.
  - intros (Hfa & Hrt & ->).
    rewrite bool_decide_eq_true_2 by done.
    rewrite bool_decide_eq_true_2; [done|].
    by apply elem_of_names_filter.
Qed.

(** A migration function of two blocks on different tables. *)
Lemma run_two a ops1 b ops2 db db' :
  a ≠ b →
  run [(a, ops1); (b, ops2)] db = Some db'
  ↔ ∃ ta ta' tb tb',
      db !! a = Some ta ∧ apply_operations ops1 ta = Some ta'
      ∧ db !! b = Some tb ∧ apply_operations ops2 tb = Some tb'
      ∧ db' = <[b := tb']> (<[a := ta']> db).
Proof.
  intros Hab. simpl. unfold batch_alter_table. split.
  - destruct (db !! a) as [ta|] eqn:Ha; [|done].
    destruct (apply_operations ops1 ta) as [ta'|] eqn:H1; [|done].
    rewrite lookup_insert_ne by done.
    destruct (db !! b) as [tb|] eqn:Hb; [|done].
    destruct (apply_operations ops2 tb) as [tb'|] eqn:H2; [|done].
    intros [= <-]. by exists ta, ta', tb, tb'.
  - intros (ta & ta' & tb & tb' & -> & -> & Hb & H2 & ->).
    rewrite lookup_insert_ne by done. by rewrite Hb, H2.
Qed.

(** What a successful [upgrade] and a successful [downgrade] are. *)
Lemma upgrade_Some db db' :
  upgrade db = Some db'
  ↔ ∃ ta tb,
      db !! "denorm_electric_operating_revenues_ferc1" = Some ta
      ∧ db !! "electric_operating_revenues_ferc1" = Some tb
      ∧ ("ferc_account" ∉ column_names ta) ∧ ("row_type_xbrl" ∉ column_names ta)
      ∧ ("ferc_account" ∉ column_names tb) ∧ ("row_type_xbrl" ∉ column_names tb)
      ∧ db' = <["electric_operating_revenues_ferc1" :=
                  tb ++ [ferc_account; row_type_xbrl]]>
                (<["denorm_electric_operating_revenues_ferc1" :=
                     ta ++ [ferc_account; row_type_xbrl]]> db).
Proof.
  unfold upgrade, upgrade_blocks. rewrite run_two by done. split.
  - intros (ta & ta' & tb & tb' & Ha & H1 & Hb & H2 & ->).
    apply add_both_Some in H1 as (? & ? & ->), H2 as (? & ? & ->).
    by exists ta, tb.
  - intros (ta & tb & Ha & Hb & ? & ? & ? & ? & ->).
    exists ta, (ta ++ [ferc_account; row_type_xbrl]),
           tb, (tb ++ [ferc_account; row_type_xbrl]).
    repeat split; try done; by apply add_both_Some.
Qed.

Lemma downgrade_Some db db' :
  downgrade db = Some db'
  ↔ ∃ ta tb,
      db !! "denorm_electric_operating_revenues_ferc1" = Some ta
      ∧ db !! "electric_operating_revenues_ferc1" = Some tb
      ∧ "ferc_account" ∈ column_names ta ∧ "row_type_xbrl" ∈ column_names ta
      ∧ "ferc_account" ∈ column_names tb ∧ "row_type_xbrl" ∈ column_names tb
      ∧ db' = <["denorm_electric_operating_revenues_ferc1" := without_metadata ta]>
                (<["electric_operating_revenues_ferc1" := without_metadata tb]> db).
Proof.
  assert (∀ t, filter (λ c, col_name c ≠ "ferc_account")
                 (filter (λ c, col_name c ≠ "row_type_xbrl") t)
               = without_metadata t) as Hfilter.
  { intros t. unfold without_metadata.
    rewrite list_filter_filter. apply list_filter_iff. tauto. }
  unfold downgrade, downgrade_blocks. rewrite run_two by done. split.
  - intros (tb & tb' & ta & ta' & Hb & H1 & Ha & H2 & ->).
    apply drop_both_Some in H1 as (? & ? & ->), H2 as (? & ? & ->).
    exists ta, tb. by rewrite !Hfilter.
  - intros (ta & tb & Ha & Hb & ? & ? & ? & ? & ->).
    exists tb, (without_metadata tb), ta, (without_metadata ta).
    rewrite <-!Hfilter. repeat split; try done; by apply drop_both_Some.
Qed.

Lemma elem_of_names_without_metadata t n :
  n ∈ column_names (without_metadata t)
  ↔ n ∈ column_names t ∧ n ≠ "ferc_account" ∧ n ≠ "row_type_xbrl".
Proof.
  unfold column_names, without_metadata. rewrite !list_elem_of_fmap. split.
  - intros (c & -> & [Hc Hin]%list_elem_of_filter). split; [by exists c|done].
  - intros [(c & -> & Hin) Hne]. exists c. split; [done|].
    by apply list_elem_of_filter.
Qed.

(** X12.  upgrade succeeds exactly on a database that has the two tables,
    neither with a column named ferc_account or row_type_xbrl; every
    other table is left as it is. *)
Theorem upgrade_succeeds_iff db :
  (is_Some (upgrade db)
   ↔ ∀ t, t = "denorm_electric_operating_revenues_ferc1"
          ∨ t = "electric_operating_revenues_ferc1" →
       ∃ cols, db !! t = Some cols
               ∧ ("ferc_account" ∉ column_names cols)
               ∧ ("row_type_xbrl" ∉ column_names cols))
  ∧ ∀ db' t, upgrade db = Some db' →
      t ≠ "denorm_electric_operating_revenues_ferc1" →
      t ≠ "electric_operating_revenues_ferc1" →
      db' !! t = db !! t.
Proof.
  split; [split|].
  - intros [db' Hup]. apply upgrade_Some in Hup.
    destruct Hup as (ta & tb & Ha & Hb & ? & ? & ? & ? & _).
    intros t [-> | ->]; eauto.
  - intros Hall.
    destruct (Hall "denorm_electric_operating_revenues_ferc1") as (ta & Ha & ? & ?);
      [by left|].
    destruct (Hall "electric_operating_revenues_ferc1") as (tb & Hb & ? & ?);
      [by right|].
    eexists. apply upgrade_Some. by exists ta, tb.
  - intros db' t Hup Hta Htb. apply upgrade_Some in Hup.
    destruct Hup as (ta & tb & _ & _ & _ & _ & _ & _ & ->).
    by rewrite !lookup_insert_ne.
Qed.

(** X13.  downgrade succeeds exactly on a database that has the two
    tables, each with a column named ferc_account and one named
    row_type_xbrl; it removes these columns, keeps the other columns of
    the two tables in their order, and leaves every other table as it
    is. *)
Theorem downgrade_succeeds_iff db :
  (is_Some (downgrade db)
   ↔ ∀ t, t = "denorm_electric_operating_revenues_ferc1"
          ∨ t = "electric_operating_revenues_ferc1" →
       ∃ cols, db !! t = Some cols
               ∧ "ferc_account" ∈ column_names cols
               ∧ "row_type_xbrl" ∈ column_names cols)
  ∧ ∀ db', downgrade db = Some db' →
      (∀ t, t = "denorm_electric_operating_revenues_ferc1"
            ∨ t = "electric_operating_revenues_ferc1" →
         ∃ cols, db !! t = Some cols
           ∧ db' !! t
             = Some (filter (λ c, col_name c ≠ "ferc_account"
                                  ∧ col_name c ≠ "row_type_xbrl") cols))
      ∧ (∀ t, t ≠ "denorm_electric_operating_revenues_ferc1" →
              t ≠ "electric_operating_revenues_ferc1" →
              db' !! t = db !! t).
Proof.
  split; [split|].
  - intros [db' Hdown]. apply downgrade_Some in Hdown.
    destruct Hdown as (ta & tb & Ha & Hb & ? & ? & ? & ? & _).
    intros t [-> | ->]; eauto.
  - intros Hall.
    destruct (Hall "denorm_electric_operating_revenues_ferc1") as (ta & Ha & ? & ?);
      [by left|].
    destruct (Hall "electric_operating_revenues_ferc1") as (tb & Hb & ? & ?);
      [by right|].
    eexists. apply downgrade_Some. by exists ta, tb.
  - intros db' Hdown. apply downgrade_Some in Hdown.
    destruct Hdown as (ta & tb & Ha & Hb & _ & _ & _ & _ & ->). split.
    + intros t [-> | ->].
      * exists ta. split; [done|]. by rewrite lookup_insert_eq.
      * exists tb. split; [done|]. rewrite lookup_insert_ne by done.
        by rewrite lookup_insert_eq.
    + intros t Hta Htb. by rewrite !lookup_insert_ne.
Qed.

(** X14.  Neither function can be run twice in a row: after a successful
    upgrade a second upgrade fails (the columns exist), and after a
    successful downgrade a second downgrade fails (they are gone). *)
Theorem migration_not_repeatable (f : gmap string (list column)
                                      → option (gmap string (list column))) db db' :
  f = upgrade ∨ f = downgrade →
  f db = Some db' → f db' = None.
Proof.
  intros [-> | ->] Hrun.
  - destruct (upgrade db') as [db''|] eqn:Hup'; [|done].
    apply upgrade_Some in Hrun as (ta & tb & _ & _ & _ & _ & _ & _ & ->).
    apply upgrade_Some in Hup' as (ta2 & tb2 & _ & Hb2 & _ & _ & Hfa & _).
    rewrite lookup_insert_eq in Hb2. injection Hb2 as <-.
    destruct Hfa. unfold column_names. rewrite fmap_app.
    apply elem_of_app. right. left.
  - destruct (downgrade db') as [db''|] eqn:Hdown'; [|done].
    apply downgrade_Some in Hrun as (ta & tb & _ & _ & _ & _ & _ & _ & ->).
    apply downgrade_Some in Hdown' as (ta2 & tb2 & Ha2 & _ & Hfa & _).
    rewrite lookup_insert_eq in Ha2. injection Ha2 as <-.
    apply elem_of_names_without_metadata in Hfa. by destruct Hfa as (_ & ? & _).
Qed.

(** X15.  downgrade followed by upgrade succeeds and gives every table
    the column names it had, but not the database back: in the two
    tables the columns ferc_account and row_type_xbrl are now the last
    ones and are defined as the migration defines them. *)
Theorem downgrade_then_upgrade db db' :
  downgrade db = Some db' →
  ∃ db'',
    upgrade db' = Some db''
    ∧ (∀ t, t = "denorm_electric_operating_revenues_ferc1"
            ∨ t = "electric_operating_revenues_ferc1" →
         ∃ cols, db !! t = Some cols
           ∧ db'' !! t
             = Some (filter (λ c, col_name c ≠ "ferc_account"
                                  ∧ col_name c ≠ "row_type_xbrl") cols
                     ++ [ferc_account; row_type_xbrl]))
    ∧ (∀ t cols, db !! t = Some cols →
         ∃ cols'', db'' !! t = Some cols''
           ∧ ∀ n, n ∈ column_names cols'' ↔ n ∈ column_names cols).
Proof.
  intros Hdown. apply downgrade_Some in Hdown.
  destruct Hdown as (ta & tb & Ha & Hb & Hfa_a & Hrt_a & Hfa_b & Hrt_b & ->).
  eexists. split.
  { apply upgrade_Some. exists (without_metadata ta), (without_metadata tb).
    rewrite lookup_insert_eq. rewrite lookup_insert_ne by done.
    rewrite lookup_insert_eq. rewrite !elem_of_names_without_metadata.
    repeat split; try done; tauto. }
  assert (∀ t n, "ferc_account" ∈ column_names t → "row_type_xbrl" ∈ column_names t →
            n ∈ column_names (without_metadata t ++ [ferc_account; row_type_xbrl])
            ↔ n ∈ column_names t) as Hnames.
  { intros t n Hfa Hrt. unfold column_names at 1. rewrite fmap_app, elem_of_app.
    fold (column_names (without_metadata t)).
    rewrite elem_of_names_without_metadata. split.
    - intros [[? _]|Hin]; [done|].
      apply list_elem_of_In in Hin. simpl in Hin.
      destruct Hin as [<-|[<-|[]]]; done.
    - intros Hin.
      destruct (decide (n = "ferc_account")) as [->|?]; [right; left|].
      destruct (decide (n = "row_type_xbrl")) as [->|?]; [right; right; left|].
      by left. }
  split.
  - intros t [-> | ->].
    + exists ta. split; [done|]. rewrite lookup_insert_ne by done.
      by rewrite lookup_insert_eq.
    + exists tb. split; [done|]. by rewrite lookup_insert_eq.
  - intros t cols Hcols.
    destruct (decide (t = "electric_operating_revenues_ferc1")) as [->|Htb].
    { rewrite lookup_insert_eq. eexists. split; [done|].
      assert (cols = tb) as -> by congruence. intros n. by apply Hnames. }
    rewrite lookup_insert_ne by done.
    destruct (decide (t = "denorm_electric_operating_revenues_ferc1")) as [->|Hta].
    { rewrite lookup_insert_eq. eexists. split; [done|].
      assert (cols = ta) as -> by congruence. intros n. by apply Hnames. }
    rewrite !lookup_insert_ne by done. by exists cols.
Qed.

End MigrationFacts.

(** ** The statements on the sample configuration *)

Module Examples.
Import PyFacts Settings SettingsFacts.

Local Notation WP := Sample.WORKING_PARTITIONS_years.
Local Notation DBF := Sample.DBF_TABLES_FILENAMES.
Local Notation ST := Sample.EPACEMS_STATES.
Local Notation model := (Settings.model WP DBF ST).
Local Notation fields := (Settings.fields WP DBF ST).
Local Notation working_partitions := (Settings.working_partitions WP DBF ST).

Ltac in_list := apply list_elem_of_In; vm_compute; tauto.
Ltac decide_it := apply (bool_decide_unpack _); vm_compute; exact I.

Lemma keys_in (m : gmap string value) (l : list string) :
  Forall (λ k, k ∈ l) (map_to_list m).*1 → ∀ k, is_Some (m !! k) → k ∈ l.
Proof.
  intros Hall k [v Hk]. eapply Forall_forall in Hall; [done|].
  apply list_elem_of_fmap. exists (k, v). split; [done|].
  by apply elem_of_map_to_list.
Qed.

(** [Ferc1Settings(years=[2019, 2018, 2019])] *)
Definition ferc1_request : gmap string value :=
  {[ "years" := VInts [2019; 2018; 2019]%Z ]}.

Lemma validate_partitions_intersection_witness :
  ∃ o, new (model Ferc1Settings) ferc1_request = Ok o
    ∧ ∀ n wp, (n, wp) ∈ working_partitions Ferc1Settings →
        ∃ s, value_sorted_set
               (value_intersection (requested Ferc1Settings ferc1_request n wp) wp)
             = Ok s
             ∧ obj_dict o !! n = Some s.
Proof.
  apply (validate_partitions_intersection WP DBF ST Ferc1Settings ferc1_request).
  - apply keys_in. decide_it.
  - intros f v Hf Hp Hv. apply list_elem_of_In in Hf.
    destruct Hf as [<-|[<-|[]]]; exfalso; apply Hp; in_list.
  - intros n wp Hmem. apply list_elem_of_In in Hmem.
    destruct Hmem as [[= <- <-]|[[= <- <-]|[]]]; decide_it.
Defined.

(** The instance [Ferc1Settings(years=[2019, 2018, 2019])] builds. *)
Definition ferc1_object : object :=
  Object "Ferc1Settings"
    {[ "years" := VInts [2018; 2019]%Z;
       "tables" := VStrs [ "fuel_ferc1"; "plant_in_service_ferc1";
                           "plants_hydro_ferc1"; "plants_pumped_storage_ferc1";
                           "plants_small_ferc1"; "plants_steam_ferc1";
                           "purchased_power_ferc1" ] ]}.

Lemma partitions_ascending_witness :
  ∃ s, obj_dict ferc1_object !! "years" = Some s ∧ ascending s.
Proof.
  apply (partitions_ascending WP DBF ST Ferc1Settings ferc1_request ferc1_object
           (eq_refl : new (model Ferc1Settings) ferc1_request = Ok ferc1_object)
           "years" (VInts (WP "ferc1"))).
  in_list.
Defined.

(** [Ferc1Settings(years=[2019, 2021])]: 2021 is no working year. *)
Definition faulty_request : gmap string value :=
  {[ "years" := VInts [2019; 2021]%Z ]}.

Lemma faulty_request_raises :
  new (model Ferc1Settings) faulty_request
  = Raise (ValidationError [("__root__", NotAvailable (VInts [2021]%Z) "years")]).
Proof. by vm_compute. Qed.

(** C1 as stated fails: the request is not cut down to its intersection
    with the working years, validation raises. *)
Lemma requested_outside_not_intersected :
  ¬ ∃ o, new (model Ferc1Settings) faulty_request = Ok o
         ∧ obj_dict o !! "years"
           = Some (VInts (list_intersection [2019; 2021]%Z (WP "ferc1"))).
Proof. rewrite faulty_request_raises. by intros (o & Ho & _). Qed.



(** Only the first faulty partition is reported: with tables of the
    wrong type and a year that is not available, the error of
    [validate_partitions] is about tables. *)
Example first_faulty_partition_only :
  new (model Ferc1Settings)
    {[ "tables" := VInt 3; "years" := VInts [2021]%Z ]}
  = Raise (ValidationError [ ("tables", WrongType);
                             ("__root__", MissingField "Ferc1Settings" "tables") ]).
Proof. by vm_compute. Qed.

(** The keyword all is only expanded when it is the whole list. *)
Example all_among_other_states :
  new (model EpaCemsSettings) {[ "states" := VStrs ["all"; "TX"] ]}
  = Raise (ValidationError [("__root__", NotAvailable (VStrs ["all"]) "states")]).
Proof. by vm_compute. Qed.

(** [Eia860Settings(eia860m=True)]: 2020 is 2019 + 1. *)
Definition eia860m_request : gmap string value := {[ "eia860m" := VBool true ]}.

Lemma check_860m_date_fails_witness :
  to_datetime_year eia860m_date = Ok 2020%Z
  ∧ ((∃ e, check_860m_date WP (VBool true) = Raise e)
     ↔ true = true
       ∧ ¬ ∃ newest, max_ (WP "eia860") = Ok newest ∧ (2020 = newest + 1)%Z)
  ∧ ((∃ e, new (model Eia860Settings) eia860m_request = Raise e)
     ↔ true = true
       ∧ ¬ ∃ newest, max_ (WP "eia860") = Ok newest ∧ (2020 = newest + 1)%Z)
  ∧ check_860m_date WP (VBool false) = Ok (VBool false).
Proof.
  apply (check_860m_date_fails WP DBF ST eia860m_request true).
  - reflexivity.
  - apply keys_in. decide_it.
  - intros n wp Hmem. apply list_elem_of_In in Hmem.
    destruct Hmem as [[= <- <-]|[[= <- <-]|[]]]; decide_it.
Defined.

(** [EpaCemsSettings(states=["all"])] *)
Definition all_states_request : gmap string value := {[ "states" := VStrs ["all"] ]}.

Lemma allow_all_keyword_expands_witness :
  ∃ o, new (model EpaCemsSettings) all_states_request = Ok o
    ∧ obj_dict o !! "states" = Some (VStrs (EpaCems_states ST))
    ∧ allow_all_keyword ST (VStrs ["all"]) = Ok (VStrs (EpaCems_states ST))
    ∧ (∀ s, s ∈ EpaCems_states ST ↔ s ∈ ST).
Proof.
  apply (allow_all_keyword_expands WP DBF ST all_states_request).
  - reflexivity.
  - apply keys_in. decide_it.
  - decide_it.
Defined.

Example all_states :
  EpaCems_states ST = ["CA"; "CO"; "ID"; "NY"; "TX"].
Proof. by vm_compute. Qed.

(** [EiaSettings(eia860={"years": [2019, 2018]})] and
    [EiaSettings(eia923={"years": [2019, 2018]})] *)
Definition eia_request : gmap string value := {[ "years" := VInts [2019; 2018]%Z ]}.

Definition eia860_object : object :=
  Object "Eia860Settings"
    {[ "years" := VInts [2018; 2019]%Z;
       "tables" := VStrs Eia860_tables;
       "eia860m" := VBool false ]}.

Definition eia923_object : object :=
  Object "Eia923Settings"
    {[ "years" := VInts [2018; 2019]%Z; "tables" := VStrs Eia923_tables ]}.

Lemma eia860_populates_eia923_witness :
  EiaSettings_new WP DBF ST
    {| data_eia860 := Some (ArgDict eia_request); data_eia923 := None |}
  = Ok {| eia860 := Some eia860_object;
          eia923 :=
            Some (Object "Eia923Settings"
                    {[ "tables" := VStrs ["boiler_fuel_eia923";
                                          "generation_eia923"];
                       "years" := VInts [2018; 2019]%Z ]}) |}.
Proof.
  destruct (eia860_populates_eia923 WP DBF ST eia_request (ArgDict eia_request)
              None eia860_object)
    as (ys & populated & Hys & -> & Hall & _).
  - by vm_compute.
  - by left.
  - by left.
  - rewrite Hall by decide_it. vm_compute in Hys. by injection Hys as <-.
Defined.

Lemma eia923_populates_eia860_witness :
  EiaSettings_new WP DBF ST
    {| data_eia860 := None; data_eia923 := Some (ArgDict eia_request) |}
  = Ok {| eia860 :=
            Some (Object "Eia860Settings"
                    {[ "years" := VInts [2018; 2019]%Z;
                       "tables" := VStrs Eia860_tables;
                       "eia860m" := VBool false ]});
          eia923 := Some eia923_object |}.
Proof.
  destruct (eia923_populates_eia860 WP DBF ST eia_request (ArgDict eia_request)
              None eia923_object)
    as (ys & populated & Hys & -> & _ & Hall & _).
  - by vm_compute.
  - by left.
  - by left.
  - rewrite Hall by decide_it. vm_compute in Hys. by injection Hys as <-.
Defined.

(** Were 2019 a working year of EIA860 and not of EIA923, the eia923
    settings could not be derived from eia860 settings of 2019. *)
Definition fewer_eia923_years (dataset : string) : list Z :=
  if bool_decide (dataset = "eia923") then seqZ 2001 18 else WP dataset.

Example eia860_years_must_be_eia923_years :
  Settings.EiaSettings_new fewer_eia923_years DBF ST
    {| data_eia860 := Some (ArgDict {[ "years" := VInts [2019]%Z ]});
       data_eia923 := None |}
  = Raise (ValidationError
      [ ("__root__",
         ValidationError [("__root__", NotAvailable (VInts [2019]%Z) "years")]) ]).
Proof. by vm_compute. Qed.

(** [DatasetsSettings()] *)
Definition no_dataset : DatasetsSettings_data :=
  {| data_ferc1 := None; data_eia := None; data_glue := None; data_epacems := None |}.

Lemma default_load_all_defaults_witness :
  ∃ r f e,
    f = Object "Ferc1Settings"
          {[ "years" := VInts (sorted_ints (set_ (WP "ferc1")));
             "tables" := VStrs Ferc1_tables ]}
    ∧ e = {| eia860 := None; eia923 := None |}
    ∧ new (model Ferc1Settings) ∅ = Ok f
    ∧ EiaSettings_new WP DBF ST {| data_eia860 := None; data_eia923 := None |} = Ok e
    ∧ default_load_all WP DBF ST no_dataset
      = Ok {| data_ferc1 := Some (ArgModel f);
              data_eia := Some (ArgModel e);
              data_glue := data_glue no_dataset;
              data_epacems := data_epacems no_dataset |}
    ∧ DatasetsSettings_new WP DBF ST no_dataset = Ok r
    ∧ ferc1 r = Some f
    ∧ eia r = Some e.
Proof.
  apply (default_load_all_defaults WP DBF ST no_dataset). reflexivity.
Defined.

Example no_dataset_settings :
  DatasetsSettings_new WP DBF ST no_dataset
  = Ok {| ferc1 := Some (Object "Ferc1Settings"
                     {[ "years" := VInts (WP "ferc1");
                        "tables" := VStrs Ferc1_tables ]});
          eia := Some {| eia860 := None; eia923 := None |};
          glue := Some (Object "GlueSettings"
                    {[ "eia" := VBool true; "ferc1" := VBool true ]});
          epacems := None |}.
Proof. by vm_compute. Qed.

(** The sample database after [upgrade]. *)
Definition upgraded_database : gmap string (list Migration.column) :=
  {[ "denorm_electric_operating_revenues_ferc1" :=
       [ Sample.utility_id; Sample.report_year; Sample.dollar_value;
         Migration.ferc_account; Migration.row_type_xbrl ];
     "electric_operating_revenues_ferc1" :=
       [ Sample.utility_id; Sample.report_year; Sample.dollar_value;
         Migration.ferc_account; Migration.row_type_xbrl ];
     "plants_steam_ferc1" := [Sample.utility_id; Sample.report_year] ]}.

Lemma upgrade_then_downgrade_witness :
  Migration.downgrade upgraded_database = Some Sample.database
  ∧ (∀ t, t = "denorm_electric_operating_revenues_ferc1"
          ∨ t = "electric_operating_revenues_ferc1" →
       ∃ cols, Sample.database !! t = Some cols
               ∧ upgraded_database !! t
                 = Some (cols ++ [Migration.ferc_account; Migration.row_type_xbrl]))
  ∧ (∀ t, Migration.column_names <$> (Sample.database !! t)
          = (db'' ← Migration.downgrade upgraded_database;
             Migration.column_names <$> (db'' !! t)))
  ∧ Migration.added Migration.upgrade_blocks
    = [ ("denorm_electric_operating_revenues_ferc1", "ferc_account");
        ("denorm_electric_operating_revenues_ferc1", "row_type_xbrl");
        ("electric_operating_revenues_ferc1", "ferc_account");
        ("electric_operating_revenues_ferc1", "row_type_xbrl") ]
  ∧ Migration.added Migration.upgrade_blocks
    ≡ₚ Migration.dropped Migration.downgrade_blocks
  ∧ Migration.dropped Migration.upgrade_blocks = []
  ∧ Migration.added Migration.downgrade_blocks = [].
Proof.
  apply (MigrationFacts.upgrade_then_downgrade Sample.database upgraded_database).
  reflexivity.
Defined.

(** Run on a database that already has the columns, [upgrade] fails. *)
Example upgrade_twice : Migration.upgrade upgraded_database = None.
Proof. by vm_compute. Qed.

(** *** More instances *)

Lemma partitions_within_working_witness :
  ∃ s, obj_dict ferc1_object !! "years" = Some s ∧ within s (VInts (WP "ferc1")).
Proof.
  apply (partitions_within_working WP DBF ST Ferc1Settings ferc1_request ferc1_object
           (eq_refl : new (model Ferc1Settings) ferc1_request = Ok ferc1_object)
           "years" (VInts (WP "ferc1"))).
  in_list.
Defined.

(** [Ferc1Settings(year=[2019])]: the field is years. *)
Definition misspelt_request : gmap string value := {[ "year" := VInts [2019]%Z ]}.

Lemma extra_argument_forbidden_witness :
  ∃ errors,
    new (model Ferc1Settings) misspelt_request = Raise (ValidationError errors)
    ∧ ("year", ExtraForbidden) ∈ errors.
Proof.
  apply (extra_argument_forbidden WP DBF ST (model Ferc1Settings) misspelt_request).
  - right. by exists Ferc1Settings.
  - by eexists.
  - decide_it.
Defined.

Definition unsorted_values : gmap string value :=
  {[ "years" := VInts [2019; 2018; 2019]%Z; "tables" := VStrs ["fuel_ferc1"] ]}.
Definition sorted_values : gmap string value :=
  {[ "years" := VInts [2018; 2019]%Z; "tables" := VStrs ["fuel_ferc1"] ]}.

Lemma validate_partitions_idempotent_witness :
  validate_partitions WP DBF ST Ferc1Settings sorted_values = Ok sorted_values.
Proof.
  apply (validate_partitions_idempotent WP DBF ST Ferc1Settings
           unsorted_values sorted_values).
  reflexivity.
Defined.

Lemma request_order_irrelevant_witness :
  new (model Ferc1Settings) (<["years" := VInts [2018; 2019; 2019]%Z]> ∅)
  = Ok ferc1_object.
Proof.
  apply (request_order_irrelevant WP DBF ST Ferc1Settings ∅ "years"
           (VInts [2019; 2018]%Z) (VInts [2018; 2019; 2019]%Z) ferc1_object).
  - intros x. split; intros Hx; apply list_elem_of_In in Hx;
      apply list_elem_of_In; simpl in *; tauto.
  - done.
  - done.
  - by vm_compute.
Defined.

(** Repeated, the keyword all is an unknown state. *)
Example all_repeated :
  new (model EpaCemsSettings) {[ "states" := VStrs ["all"; "all"] ]}
  = Raise (ValidationError [("__root__", NotAvailable (VStrs ["all"]) "states")]).
Proof. by vm_compute. Qed.

(** [Ferc1ToSqliteSettings()] *)
Definition sqlite_object : object :=
  Object "Ferc1ToSqliteSettings"
    {[ "years" := VInts (WP "ferc1");
       "tables" := VStrs ["f1_fuel"; "f1_hydro"; "f1_steam"];
       "refyear" := VInt 2019;
       "bad_cols" := VTuple [] ]}.

Lemma default_refyear_most_recent_witness :
  ∃ m, obj_dict sqlite_object !! "refyear" = Some (VInt m)
       ∧ m ∈ WP "ferc1"
       ∧ ∀ y, y ∈ WP "ferc1" → (y ≤ m)%Z.
Proof.
  apply (default_refyear_most_recent WP DBF ST ∅).
  - done.
  - done.
  - by vm_compute.
Defined.

(** [Ferc1ToSqliteSettings(refyear=2000)] and [(refyear=1990)] *)
Lemma reference_year_checked_witness :
  (∀ o, new (model Ferc1ToSqliteSettings) {[ "refyear" := VInt 2000 ]} = Ok o →
        obj_dict o !! "refyear" = Some (VInt 2000) ∧ 2000%Z ∈ WP "ferc1")
  ∧ (2000%Z ∉ WP "ferc1" →
     ∃ errors,
       new (model Ferc1ToSqliteSettings) {[ "refyear" := VInt 2000 ]}
       = Raise (ValidationError errors)
       ∧ ("refyear", ReferenceYear 2000 (VInts (WP "ferc1"))) ∈ errors).
Proof.
  apply (reference_year_checked WP DBF ST {[ "refyear" := VInt 2000 ]} 2000).
  done.
Defined.

Example reference_year_1990 :
  new (model Ferc1ToSqliteSettings) {[ "refyear" := VInt 1990 ]}
  = Raise (ValidationError
             [("refyear", ReferenceYear 1990 (VInts (WP "ferc1")))]).
Proof. by vm_compute. Qed.

Lemma revalidate_own_fields_witness :
  new (model Ferc1Settings) (obj_dict ferc1_object) = Ok ferc1_object.
Proof.
  apply (revalidate_own_fields WP DBF ST Ferc1Settings ferc1_request ferc1_object).
  - by intros [=].
  - by intros [=].
  - by vm_compute.
Defined.

(** [EiaSettings(eia860={"years": [2019, 2018]})] after validation. *)
Definition eia_populated : EiaSettings :=
  {| eia860 := Some eia860_object;
     eia923 :=
       Some (Object "Eia923Settings"
               {[ "tables" := VStrs ["boiler_fuel_eia923"; "generation_eia923"];
                  "years" := VInts [2018; 2019]%Z ]}) |}.

Lemma eia_settings_paired_witness :
  is_Some (eia860 eia_populated) ↔ is_Some (eia923 eia_populated).
Proof.
  apply (eia_settings_paired WP DBF ST
           {| data_eia860 := Some (ArgDict eia_request); data_eia923 := None |}).
  by vm_compute.
Defined.

(** [EiaSettings(eia860={"years": [2018]},
                 eia923={"years": [2019], "tables": ["coalmine_eia923"]})] *)
Definition eia860_2018 : object :=
  Object "Eia860Settings"
    {[ "years" := VInts [2018]%Z;
       "tables" := VStrs Eia860_tables;
       "eia860m" := VBool false ]}.

Definition eia923_2019 : object :=
  Object "Eia923Settings"
    {[ "years" := VInts [2019]%Z; "tables" := VStrs ["coalmine_eia923"] ]}.

Lemma eia_settings_both_kept_witness :
  EiaSettings_new WP DBF ST
    {| data_eia860 := Some (ArgDict {[ "years" := VInts [2018]%Z ]});
       data_eia923 :=
         Some (ArgDict {[ "years" := VInts [2019]%Z;
                          "tables" := VStrs ["coalmine_eia923"] ]}) |}
  = Ok {| eia860 := Some eia860_2018; eia923 := Some eia923_2019 |}.
Proof.
  apply (eia_settings_both_kept WP DBF ST
           {[ "years" := VInts [2018]%Z ]} _ eia860_2018
           {[ "years" := VInts [2019]%Z; "tables" := VStrs ["coalmine_eia923"] ]}
           _ eia923_2019).
  - by vm_compute.
  - by left.
  - by vm_compute.
  - by left.
Defined.

(** [DatasetsSettings(ferc1={"years": [2019]}, eia={"eia860": {...}},
                      glue={"eia": False})] *)
Definition with_glue : DatasetsSettings_data :=
  {| data_ferc1 := Some (ArgDict {[ "years" := VInts [2019]%Z ]});
     data_eia :=
       Some (ArgDict {| data_eia860 := Some (ArgDict eia_request);
                        data_eia923 := None |});
     data_glue := Some (ArgDict {[ "eia" := VBool false ]});
     data_epacems := None |}.

Definition with_glue_validated : DatasetsSettings :=
  {| ferc1 := Some (Object "Ferc1Settings"
                      {[ "years" := VInts [2019]%Z;
                         "tables" := VStrs Ferc1_tables ]});
     eia := Some eia_populated;
     glue := Some (Object "GlueSettings"
                     {[ "eia" := VBool true; "ferc1" := VBool true ]});
     epacems := None |}.

Lemma glue_added_with_ferc1_and_eia_witness :
  glue with_glue_validated
  = Some (Object "GlueSettings" {[ "eia" := VBool true; "ferc1" := VBool true ]}).
Proof.
  apply (glue_added_with_ferc1_and_eia WP DBF ST with_glue with_glue_validated).
  - by vm_compute.
  - by eexists.
  - by eexists.
Defined.

(** [DatasetsSettings(ferc1={"years": [2019]})] *)
Definition ferc1_only : DatasetsSettings_data :=
  {| data_ferc1 := Some (ArgDict {[ "years" := VInts [2019]%Z ]});
     data_eia := None; data_glue := None; data_epacems := None |}.

Definition ferc1_only_validated : DatasetsSettings :=
  {| ferc1 := Some (Object "Ferc1Settings"
                      {[ "years" := VInts [2019]%Z;
                         "tables" := VStrs Ferc1_tables ]});
     eia := None; glue := None; epacems := None |}.

Lemma unspecified_dataset_stays_none_witness :
  (data_ferc1 ferc1_only = None ∨ data_ferc1 ferc1_only = Some ArgNone →
   ferc1 ferc1_only_validated = None)
  ∧ (data_eia ferc1_only = None ∨ data_eia ferc1_only = Some ArgNone →
     eia ferc1_only_validated = None)
  ∧ (data_epacems ferc1_only = None ∨ data_epacems ferc1_only = Some ArgNone →
     epacems ferc1_only_validated = None).
Proof.
  apply (unspecified_dataset_stays_none WP DBF ST ferc1_only ferc1_only_validated).
  - done.
  - by vm_compute.
Defined.

Lemma migration_not_repeatable_witness :
  Migration.upgrade upgraded_database = None.
Proof.
  apply (MigrationFacts.migration_not_repeatable Migration.upgrade
           Sample.database upgraded_database).
  - by left.
  - reflexivity.
Defined.

(** The sample database with the metadata columns first. *)
Definition metadata_first : gmap string (list Migration.column) :=
  {[ "denorm_electric_operating_revenues_ferc1" :=
       [ Migration.Column "ferc_account" Migration.Text false "";
         Migration.row_type_xbrl; Sample.utility_id ];
     "electric_operating_revenues_ferc1" :=
       [ Migration.ferc_account; Sample.utility_id; Migration.row_type_xbrl ] ]}.

Definition metadata_dropped : gmap string (list Migration.column) :=
  {[ "denorm_electric_operating_revenues_ferc1" := [Sample.utility_id];
     "electric_operating_revenues_ferc1" := [Sample.utility_id] ]}.

Lemma downgrade_then_upgrade_witness :
  ∃ db'',
    Migration.upgrade metadata_dropped = Some db''
    ∧ (∀ t, t = "denorm_electric_operating_revenues_ferc1"
            ∨ t = "electric_operating_revenues_ferc1" →
         ∃ cols, metadata_first !! t = Some cols
           ∧ db'' !! t
             = Some (filter (λ c, Migration.col_name c ≠ "ferc_account"
                                  ∧ Migration.col_name c ≠ "row_type_xbrl") cols
                     ++ [Migration.ferc_account; Migration.row_type_xbrl]))
    ∧ (∀ t cols, metadata_first !! t = Some cols →
         ∃ cols'', db'' !! t = Some cols''
           ∧ ∀ n, n ∈ Migration.column_names cols''
                  ↔ n ∈ Migration.column_names cols).
Proof.
  apply (MigrationFacts.downgrade_then_upgrade metadata_first metadata_dropped).
  reflexivity.
Defined.

(** The round trip in this direction changes the database. *)
Example downgrade_then_upgrade_differs :
  (Migration.downgrade metadata_first ≫= Migration.upgrade) ≠ Some metadata_first.
Proof. decide_it. Qed.

End Examples.
